(** * ORACLE Engine: the request pipeline of [src/oracle_engine.py]

    A shallow embedding of [GeminiClient.generate],
    [OracleEngine.run_simulation], [OracleEngine.run_category],
    [OracleEngine.run_all], of what [_save_results] saves, of the figures
    of [_generate_summary] and of the hypothesis selection of [main],
    with the Python builtins they call ([str.find], [str.rfind], slicing,
    [json.loads], [float], [int], [dict.get], truthiness).

    Conventions.
    - A Python [str] is the list of its code points.
    - A Python object that can come out of [json.loads] is a [value].
    - A Python [float] is kept as the exact rational its decimal text
      denotes, with overflow to infinity and underflow to zero at the
      binary64 thresholds; rounding inside the finite range and the sign of
      zero are not modelled.
    - A call that raises returns the exception instead of a result; only
      the exceptions of class [Exception] are modelled.
    - The console and the result files are sinks: what goes to them is
      recorded as an event, and writing does not fail.
    - The endpoint and the clock are the environment: the n-th request and
      the n-th clock reading get whatever answer the environment gives.
    - [run_all] awaits one simulation at a time, so a run is a sequence of
      events; a task that waits for a permit which nobody can release is
      the outcome [Blocks]. *)

From Stdlib Require Import List String Ascii ZArith NArith QArith Qabs Bool Lia.
From Stdlib Require Import DecimalString DecimalN Permutation Sorted.
Import ListNotations.

Open Scope Z_scope.
Set Warnings "-register-all".

(** ** Python strings *)

Module Py.

Definition char := N.
Definition str := list char.

Definition ch (a : ascii) : char := N_of_ascii a.

(** Decoding of the UTF-8 bytes of a Rocq literal into code points. *)
Fixpoint utf8_decode (fuel : nat) (bs : list N) : str :=
  match fuel with
  | O => []
  | S fuel' =>
    match bs with
    | [] => []
    | b0 :: r0 =>
      if (b0 <? 128)%N then b0 :: utf8_decode fuel' r0
      else if (b0 <? 224)%N then
        match r0 with
        | b1 :: r1 =>
            ((b0 - 192) * 64 + (b1 - 128))%N :: utf8_decode fuel' r1
        | _ => [b0]
        end
      else if (b0 <? 240)%N then
        match r0 with
        | b1 :: b2 :: r2 =>
            ((b0 - 224) * 4096 + (b1 - 128) * 64 + (b2 - 128))%N
              :: utf8_decode fuel' r2
        | _ => b0 :: r0
        end
      else
        match r0 with
        | b1 :: b2 :: b3 :: r3 =>
            ((b0 - 240) * 262144 + (b1 - 128) * 4096
             + (b2 - 128) * 64 + (b3 - 128))%N :: utf8_decode fuel' r3
        | _ => b0 :: r0
        end
    end
  end.

(** [py "..."] is the Python string written as a literal. *)
Definition py (s : string) : str :=
  let bs := map N_of_ascii (list_ascii_of_string s) in
  utf8_decode (List.length bs) bs.

(** [pyq "..."] is [py "..."] with every apostrophe standing for a double
    quote, so that JSON text can be written as a literal. *)
Definition pyq (s : string) : str :=
  map (fun c => if (c =? 39)%N then 34%N else c) (py s).

Definition str_eqb (a b : str) : bool :=
  if list_eq_dec N.eq_dec a b then true else false.

Definition len {A} (l : list A) : Z := Z.of_nat (List.length l).

(** [s.find(c)] for a one-character needle: the lowest index, or -1. *)
Fixpoint find (c : char) (s : str) : Z :=
  match s with
  | [] => -1
  | x :: r =>
      if (x =? c)%N then 0
      else let k := find c r in if k <? 0 then -1 else k + 1
  end.

(** [s.rfind(c)] for a one-character needle: the highest index, or -1. *)
Fixpoint rfind (c : char) (s : str) : Z :=
  match s with
  | [] => -1
  | x :: r =>
      let k := rfind c r in
      if 0 <=? k then k + 1
      else if (x =? c)%N then 0 else -1
  end.

(** A slice bound as Python clamps it: a negative bound counts from the
    end, and the result is brought into [0, len]. *)
Definition clamp_index (n i : Z) : Z :=
  let j := if i <? 0 then i + n else i in
  Z.max 0 (Z.min n j).

(** [l[start:stop]]; [None] stands for an omitted bound. *)
Definition slice {A} (l : list A) (start stop : option Z) : list A :=
  let n := len l in
  let a := match start with Some i => clamp_index n i | None => 0 end in
  let b := match stop with Some i => clamp_index n i | None => n end in
  firstn (Z.to_nat (b - a)) (skipn (Z.to_nat a) l).

(** [needle in s] for strings: substring test. *)
Fixpoint is_prefix (p s : str) : bool :=
  match p, s with
  | [], _ => true
  | _ :: _, [] => false
  | a :: p', b :: s' => (a =? b)%N && is_prefix p' s'
  end.

Fixpoint contains (needle s : str) : bool :=
  is_prefix needle s ||
  match s with
  | [] => false
  | _ :: r => contains needle r
  end.

(** [s.upper()], on the ASCII letters. *)
Definition upper_char (c : char) : char :=
  if ((97 <=? c) && (c <=? 122))%N then (c - 32)%N else c.

Definition upper (s : str) : str := map upper_char s.


(** ** Exceptions and results *)

Inductive exn :=
| AttributeError
| IndexError
| KeyError
| TypeError
| ValueError
| OverflowError
| ZeroDivisionError
| JSONDecodeError
| ClientError.     (* anything the transport raises *)

Inductive result (A : Type) :=
| Ok (a : A)
| Raise (e : exn).
Arguments Ok {A} a.
Arguments Raise {A} e.

Definition bind {A B} (r : result A) (k : A -> result B) : result B :=
  match r with
  | Ok a => k a
  | Raise e => Raise e
  end.

Declare Scope py_scope.
Delimit Scope py_scope with py.
Notation "x <- r ;; k" := (bind r (fun x => k))
  (at level 61, r at next level, right associativity) : py_scope.
Open Scope py_scope.

(** ** Floats *)

Inductive pyfloat :=
| FNan
| FInf (neg : bool)
| FFin (q : Q).

(** The least magnitude that binary64 rounds to infinity, and the greatest
    that it rounds to zero. *)
Definition overflow_bound : Z := 2 ^ 1024 - 2 ^ 970.
Definition underflow_log : Z := 1075.

Definition float_of_Q (q : Q) : pyfloat :=
  if Qle_bool (inject_Z overflow_bound) (Qabs q) then
    FInf (negb (Qle_bool 0 q))
  else if Qle_bool (Qabs q * inject_Z (2 ^ underflow_log)) 1 then
    FFin 0
  else FFin (Qred q).

(** The value of the decimal [m * 10^e]. *)
Definition Q_of_decimal (m e : Z) : Q :=
  if 0 <=? e then inject_Z (m * 10 ^ e)
  else Qmake m (Z.to_pos (10 ^ (- e))).

Definition float_of_decimal (m e : Z) : pyfloat :=
  float_of_Q (Q_of_decimal m e).

Definition float_add (a b : pyfloat) : pyfloat :=
  match a, b with
  | FNan, _ | _, FNan => FNan
  | FInf s, FInf t => if Bool.eqb s t then FInf s else FNan
  | FInf s, FFin _ | FFin _, FInf s => FInf s
  | FFin x, FFin y => float_of_Q (x + y)
  end.

(** [float(z)] for an int: raises [OverflowError] beyond the range. *)
Definition float_of_int (z : Z) : result pyfloat :=
  if overflow_bound <=? Z.abs z then Raise OverflowError
  else Ok (FFin (inject_Z z)).

(** [int(f)] for a float: truncation toward zero. *)
Definition int_of_float (f : pyfloat) : result Z :=
  match f with
  | FNan => Raise ValueError
  | FInf _ => Raise OverflowError
  | FFin q => Ok (Z.quot (Qnum q) (Z.pos (Qden q)))
  end.

Definition float_truthy (f : pyfloat) : bool :=
  match f with
  | FFin q => negb (Qeq_bool q 0)
  | _ => true
  end.

(** ** Objects *)

Inductive value :=
| VNone
| VBool (b : bool)
| VInt (z : Z)
| VFloat (f : pyfloat)
| VStr (s : str)
| VList (l : list value)
| VDict (d : list (str * value)).

Definition dict := list (str * value).

(** A dict keeps its keys in insertion order; setting an existing key
    replaces the value in place. *)
Fixpoint dict_lookup {A} (d : list (str * A)) (k : str) : option A :=
  match d with
  | [] => None
  | (k', v) :: r => if str_eqb k' k then Some v else dict_lookup r k
  end.

Fixpoint dict_set {A} (d : list (str * A)) (k : str) (v : A)
  : list (str * A) :=
  match d with
  | [] => [(k, v)]
  | (k', v') :: r =>
      if str_eqb k' k then (k', v) :: r else (k', v') :: dict_set r k v
  end.

(** [dict(pairs)] *)
Definition dict_of_pairs {A} (ps : list (str * A)) : list (str * A) :=
  fold_left (fun d kv => dict_set d (fst kv) (snd kv)) ps [].

(** [d.get(k, default)] on a dict. *)
Definition dict_get {A} (d : list (str * A)) (k : str) (default : A) : A :=
  match dict_lookup d k with
  | Some v => v
  | None => default
  end.

(** [bool(v)] *)
Definition truthy (v : value) : bool :=
  match v with
  | VNone => false
  | VBool b => b
  | VInt z => negb (z =? 0)
  | VFloat f => float_truthy f
  | VStr s => negb (len s =? 0)
  | VList l => negb (len l =? 0)
  | VDict d => negb (len d =? 0)
  end.

(** [v.get(k, default)]: only a dict has the method. *)
Definition method_get (v : value) (k : str) (default : value)
  : result value :=
  match v with
  | VDict d => Ok (dict_get d k default)
  | _ => Raise AttributeError
  end.

(** [v[0]] *)
Definition getitem0 (v : value) : result value :=
  match v with
  | VList (x :: _) => Ok x
  | VList [] => Raise IndexError
  | VStr (c :: _) => Ok (VStr [c])
  | VStr [] => Raise IndexError
  | VDict _ => Raise KeyError         (* the keys are strings, 0 is none *)
  | _ => Raise TypeError
  end.

(** [iter(v)]: the items a [for] loop goes through. *)
Definition iterate (v : value) : result (list value) :=
  match v with
  | VList l => Ok l
  | VStr s => Ok (map (fun c => VStr [c]) s)
  | VDict d => Ok (map (fun kv => VStr (fst kv)) d)
  | _ => Raise TypeError
  end.

Definition value_is_str (v : value) (k : str) : bool :=
  match v with
  | VStr s => str_eqb s k
  | _ => false
  end.

(** [k in v] for a string [k] *)
Definition str_in (k : str) (v : value) : result bool :=
  match v with
  | VDict d => Ok (match dict_lookup d k with Some _ => true | None => false end)
  | VList l => Ok (existsb (fun x => value_is_str x k) l)
  | VStr s => Ok (contains k s)
  | _ => Raise TypeError
  end.

(** [v[k]] for a string [k] *)
Definition getitem_str (v : value) (k : str) : result value :=
  match v with
  | VDict d =>
      match dict_lookup d k with
      | Some x => Ok x
      | None => Raise KeyError
      end
  | _ => Raise TypeError
  end.


(** ** [float(s)] and [int(s)] on strings

    Only the ASCII digits are digits here; Python also takes the other
    Unicode decimal digits. *)

(** The characters [str.isspace] holds of. *)
Definition is_space (c : char) : bool :=
  (((9 <=? c) && (c <=? 13)) || ((28 <=? c) && (c <=? 32))
   || (c =? 133) || (c =? 160) || (c =? 5760)
   || ((8192 <=? c) && (c <=? 8202)) || (c =? 8232) || (c =? 8233)
   || (c =? 8239) || (c =? 8287) || (c =? 12288))%N.

Fixpoint lstrip (s : str) : str :=
  match s with
  | c :: r => if is_space c then lstrip r else s
  | [] => []
  end.

Definition strip (s : str) : str := rev (lstrip (rev (lstrip s))).

Definition is_digit (c : char) : bool := ((48 <=? c) && (c <=? 57))%N.
Definition digit_val (c : char) : Z := Z.of_N (c - 48).

Fixpoint span_digits (s : str) : str * str :=
  match s with
  | c :: r =>
      if is_digit c then let (d, t) := span_digits r in (c :: d, t)
      else ([], s)
  | [] => ([], [])
  end.

Definition digits_value (d : str) : Z :=
  fold_left (fun a c => a * 10 + digit_val c) d 0.

(** An underscore may stand only between two digits; [drop_underscores]
    removes them, or fails. *)
Fixpoint drop_underscores (prev_digit : bool) (s : str) : option str :=
  match s with
  | [] => Some []
  | c :: r =>
      if (c =? 95)%N then
        match r with
        | d :: _ =>
            if prev_digit && is_digit d then drop_underscores false r
            else None
        | [] => None
        end
      else option_map (cons c) (drop_underscores (is_digit c) r)
  end.

Definition split_sign (s : str) : bool * str :=
  match s with
  | c :: r =>
      if (c =? 45)%N then (true, r)
      else if (c =? 43)%N then (false, r)
      else (false, s)
  | [] => (false, [])
  end.

Definition lower_char (c : char) : char :=
  if ((65 <=? c) && (c <=? 90))%N then (c + 32)%N else c.

Definition lower (s : str) : str := map lower_char s.

(** [int(s)] in base 10. *)
Definition int_of_str (s : str) : result Z :=
  let (neg, body) := split_sign (strip s) in
  match drop_underscores false body with
  | Some d =>
      match d with
      | [] => Raise ValueError
      | _ =>
          if forallb is_digit d then
            Ok (if neg then - digits_value d else digits_value d)
          else Raise ValueError
      end
  | None => Raise ValueError
  end.

(** The exponent part [e], [e+] or [e-] followed by digits, up to the end
    of the text; an empty text is exponent 0. *)
Definition scan_exponent (s : str) : option Z :=
  match s with
  | [] => Some 0
  | c :: r =>
      if ((c =? 101) || (c =? 69))%N then
        let (neg, body) := split_sign r in
        match body with
        | [] => None
        | _ =>
            if forallb is_digit body then
              Some (if neg then - digits_value body else digits_value body)
            else None
        end
      else None
  end.

(** [float(s)] *)
Definition float_of_str (s : str) : result pyfloat :=
  match drop_underscores false (strip s) with
  | None => Raise ValueError
  | Some t =>
      let (neg, body) := split_sign t in
      let word := lower body in
      if str_eqb word (py "inf") || str_eqb word (py "infinity") then
        Ok (FInf neg)
      else if str_eqb word (py "nan") then Ok FNan
      else
        let (ip, r1) := span_digits body in
        let (fp, r2) :=
          match r1 with
          | c :: r => if (c =? 46)%N then span_digits r else ([], r1)
          | [] => ([], [])
          end in
        match ip ++ fp with
        | [] => Raise ValueError
        | ds =>
            match scan_exponent r2 with
            | Some e =>
                let m := digits_value ds in
                Ok (float_of_decimal (if neg then - m else m)
                                     (e - len fp))
            | None => Raise ValueError
            end
        end
  end.

(** [float(v)] *)
Definition py_float (v : value) : result pyfloat :=
  match v with
  | VFloat f => Ok f
  | VInt z => float_of_int z
  | VBool b => Ok (FFin (if b then 1 else 0))
  | VStr s => float_of_str s
  | VNone | VList _ | VDict _ => Raise TypeError
  end.

(** [int(v)] *)
Definition py_int (v : value) : result Z :=
  match v with
  | VInt z => Ok z
  | VBool b => Ok (if b then 1 else 0)
  | VFloat f => int_of_float f
  | VStr s => int_of_str s
  | VNone | VList _ | VDict _ => Raise TypeError
  end.

End Py.
Import Py.

(** ** [json.loads]

    The decoder of the standard library with its default settings: strict
    strings, the constants [NaN], [Infinity] and [-Infinity] accepted, a
    repeated key keeping its last value.  [None] stands for
    [JSONDecodeError].  The interpreter's limits (recursion depth, digits
    of an integer literal) are not modelled. *)

Module Json.

Definition is_ws (c : char) : bool :=
  ((c =? 32) || (c =? 9) || (c =? 10) || (c =? 13))%N.

Fixpoint skip_ws (s : str) : str :=
  match s with
  | c :: r => if is_ws c then skip_ws r else s
  | [] => []
  end.

Definition hex_val (c : char) : option N :=
  if ((48 <=? c) && (c <=? 57))%N then Some (c - 48)%N
  else if ((65 <=? c) && (c <=? 70))%N then Some (c - 55)%N
  else if ((97 <=? c) && (c <=? 102))%N then Some (c - 87)%N
  else None.

(** The four hex digits of a [\uXXXX] escape. *)
Definition decode_uXXXX (a b c d : char) : option N :=
  match hex_val a, hex_val b, hex_val c, hex_val d with
  | Some x, Some y, Some z, Some w =>
      Some (x * 4096 + y * 256 + z * 16 + w)%N
  | _, _, _, _ => None
  end.

(** The character a one-letter escape stands for. *)
Definition backslash (c : char) : option char :=
  if (c =? 34)%N then Some 34%N          (* quote *)
  else if (c =? 92)%N then Some 92%N     (* backslash *)
  else if (c =? 47)%N then Some 47%N     (* slash *)
  else if (c =? 98)%N then Some 8%N      (* b *)
  else if (c =? 102)%N then Some 12%N    (* f *)
  else if (c =? 110)%N then Some 10%N    (* n *)
  else if (c =? 114)%N then Some 13%N    (* r *)
  else if (c =? 116)%N then Some 9%N     (* t *)
  else None.

Definition is_high_surrogate (u : N) : bool :=
  ((55296 <=? u) && (u <=? 56319))%N.
Definition is_low_surrogate (u : N) : bool :=
  ((56320 <=? u) && (u <=? 57343))%N.

(** [scanstring]: the text after an opening quote, up to the closing one. *)
Fixpoint scanstring (s : str) : option (str * str) :=
  match s with
  | [] => None                                   (* unterminated *)
  | c :: r =>
      if (c =? 34)%N then Some ([], r)
      else if (c <? 32)%N then None              (* control character *)
      else if (c =? 92)%N then
        match r with
        | [] => None
        | e :: r1 =>
            if (e =? 117)%N then
              match r1 with
              | h1 :: h2 :: h3 :: h4 :: r2 =>
                  match decode_uXXXX h1 h2 h3 h4 with
                  | None => None
                  | Some uni =>
                      let single :=
                        match scanstring r2 with
                        | Some (t, rest) => Some (uni :: t, rest)
                        | None => None
                        end in
                      if is_high_surrogate uni then
                        match r2 with
                        | b :: u :: r3 =>
                            if ((b =? 92) && (u =? 117))%N then
                              match r3 with
                              | g1 :: g2 :: g3 :: g4 :: r4 =>
                                  match decode_uXXXX g1 g2 g3 g4 with
                                  | None => None
                                  | Some uni2 =>
                                      if is_low_surrogate uni2 then
                                        match scanstring r4 with
                                        | Some (t, rest) =>
                                            Some ((65536
                                                   + (uni - 55296) * 1024
                                                   + (uni2 - 56320))%N :: t,
                                                  rest)
                                        | None => None
                                        end
                                      else single
                                  end
                              | _ => None
                              end
                            else single
                        | _ => single
                        end
                      else single
                  end
              | _ => None
              end
            else
              match backslash e with
              | None => None
              | Some x =>
                  match scanstring r1 with
                  | Some (t, rest) => Some (x :: t, rest)
                  | None => None
                  end
              end
        end
      else
        match scanstring r with
        | Some (t, rest) => Some (c :: t, rest)
        | None => None
        end
  end.

(** The number at the head of the text, as the decoder's pattern matches
    it: an optional minus, then a zero or a digit string with no leading
    zero; an optional fraction of a dot and one or more digits; an optional
    exponent of e or E, an optional sign and one or more digits.  With a
    fraction or an exponent the number is a float, else an int. *)
Definition match_number (s : str) : option (value * str) :=
  let (neg, s0) :=
    match s with
    | c :: r => if (c =? 45)%N then (true, r) else (false, s)
    | [] => (false, [])
    end in
  let integer :=
    match s0 with
    | c :: r =>
        if (c =? 48)%N then Some ([c], r)
        else if is_digit c then Some (span_digits s0)
        else None
    | [] => None
    end in
  match integer with
  | None => None
  | Some (ip, s1) =>
      let frac :=
        match s1 with
        | c :: r =>
            if (c =? 46)%N then
              match span_digits r with
              | ([], _) => None
              | (fp, s2) => Some (fp, s2)
              end
            else None
        | [] => None
        end in
      let s2 := match frac with Some (_, t) => t | None => s1 end in
      let exp :=
        match s2 with
        | c :: r =>
            if ((c =? 101) || (c =? 69))%N then
              let (eneg, r') :=
                match r with
                | g :: t =>
                    if (g =? 45)%N then (true, t)
                    else if (g =? 43)%N then (false, t)
                    else (false, r)
                | [] => (false, [])
                end in
              match span_digits r' with
              | ([], _) => None
              | (ep, s3) =>
                  Some (if eneg then - digits_value ep else digits_value ep,
                        s3)
              end
            else None
        | [] => None
        end in
      let s3 := match exp with Some (_, t) => t | None => s2 end in
      let sign (z : Z) := if neg then - z else z in
      match frac, exp with
      | None, None => Some (VInt (sign (digits_value ip)), s3)
      | _, _ =>
          let fp := match frac with Some (d, _) => d | None => [] end in
          let e := match exp with Some (z, _) => z | None => 0 end in
          Some (VFloat (float_of_decimal (sign (digits_value (ip ++ fp)))
                                         (e - len fp)), s3)
      end
  end.

(** [strip_prefix p s] is what follows [p] in [s]. *)
Fixpoint strip_prefix (p s : str) : option str :=
  match p, s with
  | [], _ => Some s
  | a :: p', b :: s' => if (a =? b)%N then strip_prefix p' s' else None
  | _ :: _, [] => None
  end.

Definition scan_constant (s : str) : option (value * str) :=
  match strip_prefix (py "null") s with
  | Some r => Some (VNone, r)
  | None =>
  match strip_prefix (py "true") s with
  | Some r => Some (VBool true, r)
  | None =>
  match strip_prefix (py "false") s with
  | Some r => Some (VBool false, r)
  | None =>
  match match_number s with
  | Some x => Some x
  | None =>
  match strip_prefix (py "NaN") s with
  | Some r => Some (VFloat FNan, r)
  | None =>
  match strip_prefix (py "Infinity") s with
  | Some r => Some (VFloat (FInf false), r)
  | None =>
  match strip_prefix (py "-Infinity") s with
  | Some r => Some (VFloat (FInf true), r)
  | None => None
  end end end end end end end.

(** [scan_once]: one value at the head of the text.  [JSONObject] and
    [JSONArray] are its two loops; each call consumes a character, so the
    length of the text is fuel enough. *)
Fixpoint scan_once (fuel : nat) (s : str) {struct fuel}
  : option (value * str) :=
  match fuel with
  | O => None
  | S f =>
      match s with
      | [] => None
      | c :: r =>
          if (c =? 34)%N then
            match scanstring r with
            | Some (t, rest) => Some (VStr t, rest)
            | None => None
            end
          else if (c =? 123)%N then
            match skip_ws r with
            | x :: r1 =>
                if (x =? 125)%N then Some (VDict [], r1)
                else if (x =? 34)%N then
                  match object_members f r1 [] with
                  | Some (pairs, rest) =>
                      Some (VDict (dict_of_pairs pairs), rest)
                  | None => None
                  end
                else None
            | [] => None
            end
          else if (c =? 91)%N then
            match skip_ws r with
            | x :: r1 =>
                if (x =? 93)%N then Some (VList [], r1)
                else
                  match array_items f (x :: r1) [] with
                  | Some (items, rest) => Some (VList items, rest)
                  | None => None
                  end
            | [] => None
            end
          else scan_constant s
      end
  end

with object_members (fuel : nat) (s : str) (pairs : list (str * value))
  {struct fuel} : option (list (str * value) * str) :=
  match fuel with
  | O => None
  | S f =>
      match scanstring s with
      | None => None
      | Some (key, s1) =>
          match skip_ws s1 with
          | c :: s2 =>
              if (c =? 58)%N then
                match scan_once f (skip_ws s2) with
                | None => None
                | Some (v, s3) =>
                    let pairs' := pairs ++ [(key, v)] in
                    match skip_ws s3 with
                    | d :: s4 =>
                        if (d =? 125)%N then Some (pairs', s4)
                        else if (d =? 44)%N then
                          match skip_ws s4 with
                          | q :: s5 =>
                              if (q =? 34)%N then object_members f s5 pairs'
                              else None
                          | [] => None
                          end
                        else None
                    | [] => None
                    end
                end
              else None
          | [] => None
          end
      end
  end

with array_items (fuel : nat) (s : str) (items : list value)
  {struct fuel} : option (list value * str) :=
  match fuel with
  | O => None
  | S f =>
      match scan_once f s with
      | None => None
      | Some (v, s1) =>
          let items' := items ++ [v] in
          match skip_ws s1 with
          | d :: s2 =>
              if (d =? 93)%N then Some (items', s2)
              else if (d =? 44)%N then array_items f (skip_ws s2) items'
              else None
          | [] => None
          end
      end
  end.

(** [json.loads(s)] *)
Definition loads (s : str) : result value :=
  match s with
  | 65279%N :: _ => Raise JSONDecodeError            (* byte order mark *)
  | _ =>
      match scan_once (S (List.length s)) (skip_ws s) with
      | Some (v, rest) =>
          match skip_ws rest with
          | [] => Ok v
          | _ :: _ => Raise JSONDecodeError          (* extra data *)
          end
      | None => Raise JSONDecodeError
      end
  end.

End Json.

(** ** Data model *)

(** Module-level configuration. *)
Record settings := {
  GEMINI_MODEL : str;
  MAX_CONCURRENT : Z;
  DELAY_BETWEEN_CALLS : pyfloat
}.

Definition RETRY_ATTEMPTS : Z := 3.

Record SimulationResult := {
  simulation_id : str;
  domain : str;
  category : str;
  hypothesis : str;
  scenario : str;
  outcome : value;
  confidence : pyfloat;
  insights : value;
  recommendations : value;
  risks : value;
  dependencies : value;
  priority_score : Z;
  raw_response : str;
  timestamp : Z;       (* the instant read; its ISO text is not rendered *)
  duration_ms : Z;
  metadata : dict
}.

(** The body of a request. *)
Record payload := {
  contents_text : str;
  temperature : pyfloat;
  topP : pyfloat;
  maxOutputTokens : Z;
  thinkingLevel : option str
}.

(** What the transport does with one POST: it raises, or it hands back a
    response with a status, on which [json()] and [text()] each give a
    result or raise. *)
Record response := {
  status : Z;
  json_body : result value;
  text_body : result str
}.

Inductive post_outcome :=
| PostRaises (e : exn)
| PostResponse (r : response).

(** The world outside: the endpoint answers the n-th request of the run,
    the clock answers the n-th reading (in microseconds). *)
Record environment := {
  endpoint : nat -> str -> payload -> post_outcome;
  now : nat -> Z
}.

Inductive icon := IconPlus | IconMinus | IconO.

(** What the run does that can be observed, in order. *)
Inductive event :=
| EvPost (n : nat) (url : str) (body : payload)
| EvSleep (seconds : value)
| EvPrintRateLimited (wait_time : Z)
| EvPrintApiError (status : Z) (text : str)
| EvPrintRequestError (e : exn)
| EvAcquire
| EvRelease
| EvAppendLocal (id : str)
| EvAppendGlobal (id : str)
| EvProgress (category : str) (done total : Z) (pct : Q) (mark : icon)
| EvNewline
| EvCategoryHeader (category : str) (count : Z)
| EvSaveResults (category : str) (saved : list SimulationResult)
| EvPrintTokens (total : value)
| EvSummary (all : list SimulationResult)
| EvPrintNoHypotheses (domain : str).

Record world := {
  posts : nat;                       (* requests sent so far *)
  clock_reads : nat;                 (* clock readings so far *)
  events : list event;               (* most recent last *)
  total_tokens : value;              (* GeminiClient.total_tokens *)
  results : list SimulationResult;   (* OracleEngine.results *)
  permits : Z                        (* the semaphore's counter *)
}.

(** ** Effects: state, exceptions, and a task that waits for ever *)

Inductive completion (A : Type) :=
| Returns (a : A)
| Raises (e : exn)
| Blocks.
Arguments Returns {A} a.
Arguments Raises {A} e.
Arguments Blocks {A}.

Definition M (A : Type) := world -> completion A * world.

Definition ret {A} (a : A) : M A := fun w => (Returns a, w).

Definition raise {A} (e : exn) : M A := fun w => (Raises e, w).

Definition mbind {A B} (m : M A) (k : A -> M B) : M B :=
  fun w =>
    match m w with
    | (Returns a, w') => k a w'
    | (Raises e, w') => (Raises e, w')
    | (Blocks, w') => (Blocks, w')
    end.

Notation "x <~ m ;; k" := (mbind m (fun x => k))
  (at level 61, m at next level, right associativity) : py_scope.
Notation "m ;;; k" := (mbind m (fun _ => k))
  (at level 61, right associativity) : py_scope.

(** A pure call that may raise. *)
Definition lift {A} (r : result A) : M A :=
  match r with
  | Ok a => ret a
  | Raise e => raise e
  end.

(** [try: m except Exception as e: h e] *)
Definition try_except {A} (m : M A) (h : exn -> M A) : M A :=
  fun w =>
    match m w with
    | (Raises e, w') => h e w'
    | r => r
    end.

Definition emit (e : event) : M unit :=
  fun w => (Returns tt,
            {| posts := posts w; clock_reads := clock_reads w;
               events := events w ++ [e];
               total_tokens := total_tokens w; results := results w;
               permits := permits w |}).

Definition get_world : M world := fun w => (Returns w, w).

Definition set_total_tokens (v : value) : M unit :=
  fun w => (Returns tt,
            {| posts := posts w; clock_reads := clock_reads w;
               events := events w;
               total_tokens := v; results := results w;
               permits := permits w |}).

Definition set_results (rs : list SimulationResult) : M unit :=
  fun w => (Returns tt,
            {| posts := posts w; clock_reads := clock_reads w;
               events := events w;
               total_tokens := total_tokens w; results := rs;
               permits := permits w |}).

Definition set_permits (n : Z) : M unit :=
  fun w => (Returns tt,
            {| posts := posts w; clock_reads := clock_reads w;
               events := events w;
               total_tokens := total_tokens w; results := results w;
               permits := n |}).

(** [await asyncio.sleep(seconds)] *)
Definition sleep (seconds : value) : M unit := emit (EvSleep seconds).

(** [datetime.now()] *)
Definition read_clock (E : environment) : M Z :=
  fun w => (Returns (now E (clock_reads w)),
            {| posts := posts w; clock_reads := S (clock_reads w);
               events := events w;
               total_tokens := total_tokens w; results := results w;
               permits := permits w |}).

(** [session.post(url, json=payload)] *)
Definition post (E : environment) (url : str) (body : payload)
  : M response :=
  fun w =>
    let n := posts w in
    let w' := {| posts := S n; clock_reads := clock_reads w;
                 events := events w ++ [EvPost n url body];
                 total_tokens := total_tokens w; results := results w;
                 permits := permits w |} in
    match endpoint E n url body with
    | PostRaises e => (Raises e, w')
    | PostResponse r => (Returns r, w')
    end.

(** ** [GeminiClient] *)

Record GeminiClient := {
  api_key : str;
  model : str;
  api_url : str;
  session : bool          (* [false] while [self.session] is [None] *)
}.

Definition NO_TEXT : str := pyq "{'error': 'No text in response'}".
Definition FAILED_AFTER_RETRIES : str := pyq "{'error': 'Failed after retries'}".

(** [GeminiClient.__init__]; the token counter it zeroes lives in the
    world, see [new_client]. *)
Definition GeminiClient_init (cfg : settings) (key : str)
  (mdl : option str) : GeminiClient :=
  let m := match mdl with
           | Some m => if truthy (VStr m) then m else GEMINI_MODEL cfg
           | None => GEMINI_MODEL cfg
           end in
  {| api_key := key;
     model := m;
     api_url := py "https://generativelanguage.googleapis.com/v1beta/models/"
                ++ m ++ py ":generateContent";
     session := false |}.

(** [__aenter__] *)
Definition aenter (c : GeminiClient) : GeminiClient :=
  {| api_key := api_key c; model := model c; api_url := api_url c;
     session := true |}.

(** [a + b] where [a] is an int or a float, as in [total_tokens += b]. *)
Definition py_add (a b : value) : result value :=
  match a, b with
  | VInt x, VInt y => Ok (VInt (x + y))
  | VInt x, VBool y => Ok (VInt (x + (if y then 1 else 0)))
  | VInt x, VFloat g => f <- float_of_int x ;; Ok (VFloat (float_add f g))
  | VFloat f, VInt y => g <- float_of_int y ;; Ok (VFloat (float_add f g))
  | VFloat f, VBool y =>
      Ok (VFloat (float_add f (FFin (if y then 1 else 0))))
  | VFloat f, VFloat g => Ok (VFloat (float_add f g))
  | _, _ => Raise TypeError
  end.

(** The loop over [parts]: every part that has a ["text"] overwrites
    [text_response]. *)
Fixpoint text_of_parts (parts : list value) (text_response : value)
  : result value :=
  match parts with
  | [] => Ok text_response
  | part :: rest =>
      has <- str_in (py "text") part ;;
      if has then
        t <- getitem_str part (py "text") ;; text_of_parts rest t
      else text_of_parts rest text_response
  end.

(** [data.get("candidates", [{}])[0].get("content", {}).get("parts", [])],
    and what the [for] loop then iterates over. *)
Definition get_parts (data : value) : result (list value) :=
  candidates <- method_get data (py "candidates") (VList [VDict []]) ;;
  first <- getitem0 candidates ;;
  content <- method_get first (py "content") (VDict []) ;;
  parts <- method_get content (py "parts") (VList []) ;;
  iterate parts.

(** [# Track usage if available]: the new token total. *)
Definition track_usage (data : value) (tokens : value) : result value :=
  usage <- method_get data (py "usageMetadata") (VDict []) ;;
  if truthy usage then
    n <- method_get usage (py "totalTokenCount") (VInt 0) ;;
    py_add tokens n
  else Ok tokens.

(** The status-200 branch after [response.json()]: the text to return and
    the new token total. *)
Definition on_200 (data : value) (tokens : value)
  : result (value * value) :=
  items <- get_parts data ;;
  text_response <- text_of_parts items (VStr []) ;;
  tokens' <- track_usage data tokens ;;
  Ok (if truthy text_response then text_response else VStr NO_TEXT,
      tokens').

Definition make_payload (c : GeminiClient) (prompt : str)
  (temp : pyfloat) : payload :=
  {| contents_text := prompt;
     temperature := temp;
     topP := FFin (95 # 100);
     maxOutputTokens := 4096;
     thinkingLevel :=
       if contains (py "gemini-3") (model c)
          || contains (py "thinking") (model c)
       then Some (py "low") else None |}.

(** One pass through the body of the retry loop: [Some text] when the
    function returns, [None] when the loop goes on. *)
Definition attempt_body (E : environment) (c : GeminiClient) (url : str)
  (body : payload) (attempt : Z) : M (option value) :=
  try_except
    (r <~ (if session c then post E url body else raise AttributeError) ;;
     if status r =? 200 then
       data <~ lift (json_body r) ;;
       w <~ get_world ;;
       tt' <~ lift (on_200 data (total_tokens w)) ;;
       set_total_tokens (snd tt') ;;;
       ret (Some (fst tt'))
     else if status r =? 429 then
       let wait_time := (attempt + 1) * 5 in
       emit (EvPrintRateLimited wait_time) ;;;
       sleep (VInt wait_time) ;;;
       ret None
     else
       text <~ lift (text_body r) ;;
       emit (EvPrintApiError (status r) (slice text None (Some 200))) ;;;
       ret None)
    (fun e =>
       emit (EvPrintRequestError e) ;;;
       sleep (VInt 2) ;;;
       ret None).

Fixpoint attempts_loop (E : environment) (c : GeminiClient) (url : str)
  (body : payload) (attempts : list Z) : M value :=
  match attempts with
  | [] => ret (VStr FAILED_AFTER_RETRIES)
  | attempt :: rest =>
      r <~ attempt_body E c url body attempt ;;
      match r with
      | Some text => ret text
      | None => attempts_loop E c url body rest
      end
  end.

(** [range(n)] *)
Definition range (n : Z) : list Z := map Z.of_nat (seq 0 (Z.to_nat n)).

Definition request_url (c : GeminiClient) : str :=
  api_url c ++ py "?key=" ++ api_key c.

(** [GeminiClient.generate] *)
Definition generate (E : environment) (c : GeminiClient) (prompt : str)
  (temp : pyfloat) : M value :=
  let url := request_url c in
  attempts_loop E c url (make_payload c prompt temp) (range RETRY_ATTEMPTS).

Definition default_temperature : pyfloat := FFin (7 # 10).

(** ** [OracleEngine] *)

(** The domain configuration, as the template files give it: the master
    prompt when there is one, each category with its prompt when it has
    one, and the hypotheses of each category. *)
Record domain_config := {
  master_prompt : option str;
  categories : list (str * option str);
  hypotheses : list (str * list str)
}.

Record OracleEngine := {
  self_domain : str;
  self_api_key : str;
  self_config : domain_config
}.

Definition _default_master_prompt : str := pyq
"Sen dünyanın en deneyimli stratejik danışmanısın. 20+ yıl boyunca
Fortune 500 şirketlerinin kritik kararlarında danışmanlık yaptın.

## GÖREV
Verilen hipotezi stratejik açıdan analiz et ve değerlendir.

## ANALİZ KRİTERLERİ
1. **Desirability** - Hedef kitle bunu gerçekten istiyor mu?
2. **Feasibility** - Teknik/operasyonel olarak mümkün mü?
3. **Viability** - İş modeli sürdürülebilir mi?
4. **Differentiation** - Rakiplerden nasıl ayrışıyor?
5. **Scalability** - Ölçeklenebilir mi?
6. **Risk** - Ana riskler neler?

## ÇIKTI FORMATI (STRICT JSON)
Sadece JSON döndür:
{
  'outcome': 'positive|negative|neutral',
  'confidence': 0.0-1.0,
  'insights': ['insight1', 'insight2', 'insight3'],
  'recommendations': ['rec1', 'rec2'],
  'risks': ['risk1', 'risk2'],
  'priority_score': 1-100,
  'summary': 'Tek paragraf özet'
}".

Definition nl : str := [10%N].

(** The decimal digits of a natural number. *)
Definition decimal (n : Z) : str :=
  py (NilEmpty.string_of_uint (N.to_uint (Z.to_N n))).

(** The format [04d]: sign, then zeros up to a width of four. *)
Definition format_04d (n : Z) : str :=
  let sign := if n <? 0 then py "-" else [] in
  let digits := decimal (Z.abs n) in
  sign ++ repeat 48%N (4 - List.length sign - List.length digits) ++ digits.

Definition make_sim_id (dom cat : str) (sim_number : Z) : str :=
  py "ORC-" ++ upper (slice dom None (Some 3)) ++ py "-"
  ++ upper (slice cat None (Some 3)) ++ py "-" ++ format_04d sim_number.

Definition make_prompt (eng : OracleEngine) (cat hyp : str) : str :=
  let master :=
    match master_prompt (self_config eng) with
    | Some p => p
    | None => _default_master_prompt
    end in
  let category_prompt :=
    match dict_lookup (categories (self_config eng)) cat with
    | Some (Some p) => p
    | _ => []
    end in
  master ++ nl ++ nl
  ++ py "## DOMAIN: " ++ upper (self_domain eng) ++ nl
  ++ py "## CATEGORY: " ++ cat ++ nl ++ nl
  ++ category_prompt ++ nl ++ nl
  ++ py "## HİPOTEZ" ++ nl
  ++ hyp ++ nl ++ nl
  ++ py "Analiz et ve JSON formatında cevap ver.".

Definition NO_JSON_FOUND : dict :=
  [(py "error", VStr (py "No JSON found"));
   (py "outcome", VStr (py "neutral"))].

Definition INVALID_JSON : dict :=
  [(py "error", VStr (py "Invalid JSON"));
   (py "outcome", VStr (py "neutral"))].

(** The [try] block of the parse step, without its handler. *)
Definition locate_and_load (raw_response : str) : result value :=
  let json_start := find (ch "{") raw_response in
  let json_end := rfind (ch "}") raw_response + 1 in
  if (json_start >=? 0) && (json_end >? json_start) then
    Json.loads (slice raw_response (Some json_start) (Some json_end))
  else Ok (VDict NO_JSON_FOUND).

(** The parse step up to [data]: [except json.JSONDecodeError] catches
    that exception and no other. *)
Definition parse_data (raw_response : str) : result value :=
  match locate_and_load raw_response with
  | Raise JSONDecodeError => Ok (VDict INVALID_JSON)
  | r => r
  end.

(** The fields of the record that are pulled out of [data], in the order
    the constructor call evaluates them. *)
Record verdict := {
  v_outcome : value;
  v_confidence : pyfloat;
  v_insights : value;
  v_recommendations : value;
  v_risks : value;
  v_dependencies : value;
  v_priority_score : Z
}.

Definition extract_fields (data : value) : result verdict :=
  o <- method_get data (py "outcome") (VStr (py "neutral")) ;;
  c <- method_get data (py "confidence") (VFloat (FFin (1 # 2))) ;;
  conf <- py_float c ;;
  i <- method_get data (py "insights") (VList []) ;;
  r <- method_get data (py "recommendations") (VList []) ;;
  k <- method_get data (py "risks") (VList []) ;;
  d <- method_get data (py "dependencies") (VList []) ;;
  p <- method_get data (py "priority_score") (VInt 50) ;;
  prio <- py_int p ;;
  Ok {| v_outcome := o; v_confidence := conf; v_insights := i;
        v_recommendations := r; v_risks := k; v_dependencies := d;
        v_priority_score := prio |}.

(** The parse step on a reply text: [data], the fields, the summary. *)
Definition parse (raw_response : str) : result (verdict * value) :=
  data <- parse_data raw_response ;;
  v <- extract_fields data ;;
  s <- method_get data (py "summary") (VStr []) ;;
  Ok (v, s).

(** [OracleEngine.run_simulation] *)
Definition run_simulation (E : environment) (eng : OracleEngine)
  (client : GeminiClient) (cat hyp : str) (sim_number : Z)
  : M SimulationResult :=
  let sim_id := make_sim_id (self_domain eng) cat sim_number in
  let full_prompt := make_prompt eng cat hyp in
  start <~ read_clock E ;;
  reply <~ generate E client full_prompt default_temperature ;;
  stop <~ read_clock E ;;
  let duration := stop - start in          (* microseconds *)
  raw <~ (match reply with
          | VStr s => ret s
          | _ => raise AttributeError        (* no [find] on it *)
          end) ;;
  data <~ lift (parse_data raw) ;;
  v <~ lift (extract_fields data) ;;
  ts <~ read_clock E ;;
  summary <~ lift (method_get data (py "summary") (VStr [])) ;;
  ret {| simulation_id := sim_id;
         domain := self_domain eng;
         category := cat;
         hypothesis := hyp;
         scenario := slice hyp None (Some 200);
         outcome := v_outcome v;
         confidence := v_confidence v;
         insights := v_insights v;
         recommendations := v_recommendations v;
         risks := v_risks v;
         dependencies := v_dependencies v;
         priority_score := v_priority_score v;
         raw_response := raw;
         timestamp := ts;
         duration_ms := Z.quot duration 1000;
         metadata := [(py "summary", summary)] |}.

(** [asyncio.Semaphore(n)] *)
Definition Semaphore (n : Z) : M unit :=
  if n <? 0 then raise ValueError else set_permits n.

(** [acquire]: with no permit left the task waits; nothing else runs that
    could release one. *)
Definition acquire : M unit :=
  fun w =>
    if 0 <? permits w then
      (set_permits (permits w - 1) ;;; emit EvAcquire) w
    else (Blocks, w).

Definition release : M unit :=
  w <~ get_world ;; set_permits (permits w + 1) ;;; emit EvRelease.

(** [async with semaphore: body]: the permit goes back however the body
    ends. *)
Definition async_with_semaphore {A} (body : M A) : M A :=
  acquire ;;;
  fun w =>
    match body w with
    | (Returns a, w') => (release ;;; ret a) w'
    | (Raises e, w') => (release ;;; raise e) w'
    | (Blocks, w') => (Blocks, w')
    end.

(** [a / b] on ints *)
Definition true_div (a b : Z) : result Q :=
  if b =? 0 then Raise ZeroDivisionError
  else Ok (Qred (inject_Z a / inject_Z b)).

Definition outcome_icon (o : value) : icon :=
  if value_is_str o (py "positive") then IconPlus
  else if value_is_str o (py "negative") then IconMinus
  else IconO.

(** [self.results.append(result)] *)
Definition append_global (r : SimulationResult) : M unit :=
  w <~ get_world ;;
  set_results (results w ++ [r]) ;;;
  emit (EvAppendGlobal (simulation_id r)).

(** The body of the [for] loop of [run_category] for the item at index
    [i]. *)
Definition run_item (E : environment) (cfg : settings) (eng : OracleEngine)
  (client : GeminiClient) (cat : str) (total i : Z) (hyp : str)
  : M SimulationResult :=
  async_with_semaphore
    (result <~ run_simulation E eng client cat hyp (i + 1) ;;
     emit (EvAppendLocal (simulation_id result)) ;;;
     append_global result ;;;
     ratio <~ lift (true_div (i + 1) total) ;;
     emit (EvProgress cat (i + 1) total (Qred (ratio * 100))
                      (outcome_icon (outcome result))) ;;;
     sleep (VFloat (DELAY_BETWEEN_CALLS cfg)) ;;;
     ret result).

Fixpoint run_items (E : environment) (cfg : settings) (eng : OracleEngine)
  (client : GeminiClient) (cat : str) (total i : Z) (hyps : list str)
  (acc : list SimulationResult) : M (list SimulationResult) :=
  match hyps with
  | [] => ret acc
  | hyp :: rest =>
      r <~ run_item E cfg eng client cat total i hyp ;;
      run_items E cfg eng client cat total (i + 1) rest (acc ++ [r])
  end.

(** [OracleEngine.run_category] *)
Definition run_category (E : environment) (cfg : settings)
  (eng : OracleEngine) (client : GeminiClient) (cat : str)
  (hyps : list str) : M (list SimulationResult) :=
  rs <~ run_items E cfg eng client cat (len hyps) 0 hyps [] ;;
  emit EvNewline ;;;
  ret rs.

Definition category_eqb (cat : str) (r : SimulationResult) : bool :=
  str_eqb (category r) cat.

(** [_save_results]: the file is a sink; what goes into it is recorded. *)
Definition _save_results (cat : str) : M unit :=
  w <~ get_world ;;
  emit (EvSaveResults cat (filter (category_eqb cat) (results w))).

(** [_generate_summary], likewise. *)
Definition _generate_summary : M unit :=
  w <~ get_world ;; emit (EvSummary (results w)).

Fixpoint run_categories (E : environment) (cfg : settings)
  (eng : OracleEngine) (client : GeminiClient)
  (cats : list (str * list str)) : M unit :=
  match cats with
  | [] => ret tt
  | (cat, hyps) :: rest =>
      emit (EvCategoryHeader (upper cat) (len hyps)) ;;;
      run_category E cfg eng client cat hyps ;;;
      _save_results cat ;;;
      run_categories E cfg eng client rest
  end.

(** [OracleEngine.run_all] *)
Definition run_all (E : environment) (cfg : settings) (eng : OracleEngine)
  (cats : list (str * list str)) : M (list SimulationResult) :=
  Semaphore (MAX_CONCURRENT cfg) ;;;
  let client := aenter (GeminiClient_init cfg (self_api_key eng) None) in
  set_total_tokens (VInt 0) ;;;
  run_categories E cfg eng client cats ;;;
  w <~ get_world ;;
  emit (EvPrintTokens (total_tokens w)) ;;;
  _generate_summary ;;;
  w' <~ get_world ;;
  ret (results w').

(** [OracleEngine.__init__]: a new engine has no results. *)
Definition OracleEngine_init (dom key : str) (config : domain_config)
  : OracleEngine * list SimulationResult :=
  ({| self_domain := dom; self_api_key := key; self_config := config |}, []).

(** The world a process starts in. *)
Definition initial_world : world :=
  {| posts := 0; clock_reads := 0; events := [];
     total_tokens := VInt 0; results := []; permits := 0 |}.

(** ** [main] *)

Record arguments := {
  arg_domain : str;
  arg_category : option str;
  arg_count : option Z
}.

Inductive main_plan :=
| Exit (code : Z)
| RunAll (cats : list (str * list str)).

(** The selection of the hypotheses to run, from [# Get hypotheses] to
    the call of [run_all]. *)
Definition select_hypotheses (config : domain_config) (args : arguments)
  : main_plan :=
  let hyps := hypotheses config in
  match hyps with
  | [] => Exit 1
  | _ :: _ =>
      let hyps1 :=
        match arg_category args with
        | Some c =>
            if truthy (VStr c) then [(c, dict_get hyps c [])] else hyps
        | None => hyps
        end in
      let hyps2 :=
        match arg_count args with
        | Some n =>
            if n =? 0 then hyps1
            else map (fun kv => (fst kv, slice (snd kv) None (Some n))) hyps1
        | None => hyps1
        end in
      RunAll hyps2
  end.

Inductive main_result :=
| Exited (code : Z)
| Completed (rs : list SimulationResult).

(** [main] after the arguments, the key and the template are read. *)
Definition main (E : environment) (cfg : settings) (key : str)
  (config : domain_config) (args : arguments) : M main_result :=
  let (eng, fresh) := OracleEngine_init (arg_domain args) key config in
  set_results fresh ;;;
  match select_hypotheses config args with
  | Exit code =>
      emit (EvPrintNoHypotheses (arg_domain args)) ;;;
      ret (Exited code)
  | RunAll cats => rs <~ run_all E cfg eng cats ;; ret (Completed rs)
  end.

(** ** Scenarios

    Replies, endpoints and settings that the examples below run on. *)

(** A response body of the documented shape with the given parts. *)
Definition body_with_parts (parts : list value) : value :=
  VDict [(py "candidates",
          VList [VDict [(py "content",
                         VDict [(py "parts", VList parts)])]])].

Definition text_part (text : value) : value := VDict [(py "text", text)].

Definition ok_response (data : value) : response :=
  {| status := 200; json_body := Ok data; text_body := Ok [] |}.

Definition status_response (code : Z) : response :=
  {| status := code; json_body := Raise ClientError; text_body := Ok [] |}.

(** An endpoint that gives the same answer to every request, and a clock
    that advances 1500 microseconds per reading. *)
Definition always (o : post_outcome) : environment :=
  {| endpoint := fun _ _ _ => o;
     now := fun n => Z.of_nat n * 1500 |}.

(** An endpoint that answers every request with status 200 and one text
    part. *)
Definition answering (text : value) : environment :=
  always (PostResponse (ok_response (body_with_parts [text_part text]))).

(** An endpoint that goes through a list of answers, then repeats the
    last one given. *)
Definition scripted (script : list post_outcome) (last : post_outcome)
  : environment :=
  {| endpoint := fun n _ _ => nth n script last;
     now := fun n => Z.of_nat n * 1500 |}.

Definition default_settings : settings :=
  {| GEMINI_MODEL := py "gemini-2.0-flash";
     MAX_CONCURRENT := 5;
     DELAY_BETWEEN_CALLS := FFin 1 |}.

Definition business_config : domain_config :=
  {| master_prompt := None;
     categories := [(py "viability", Some (py "Assess viability."))];
     hypotheses :=
       [(py "viability",
         [py "Subscription pricing model"; py "Freemium with ads"])] |}.

Definition business_engine : OracleEngine :=
  fst (OracleEngine_init (py "business") (py "key") business_config).

Definition open_client : GeminiClient :=
  aenter (GeminiClient_init default_settings (py "key") None).

(** Decoding a JSON text directly and pulling the same fields from it. *)
Definition decode_directly (obj : str) : result (verdict * value) :=
  data <- Json.loads obj ;;
  v <- extract_fields data ;;
  s <- method_get data (py "summary") (VStr []) ;;
  Ok (v, s).

(** ** Vocabulary of the properties *)

(** The fields of a record that the parse step fills. *)
Definition verdict_of (r : SimulationResult) : verdict :=
  {| v_outcome := outcome r; v_confidence := confidence r;
     v_insights := insights r; v_recommendations := recommendations r;
     v_risks := risks r; v_dependencies := dependencies r;
     v_priority_score := priority_score r |}.

Definition NEUTRAL : value := VStr (py "neutral").

Definition valid_outcome (o : value) : Prop :=
  o = VStr (py "positive") \/ o = VStr (py "negative") \/ o = NEUTRAL.

Definition in_unit_interval (f : pyfloat) : Prop :=
  match f with
  | FFin q => (0 <= q /\ q <= 1)%Q
  | _ => False
  end.

(** The answer to request [n] is a status 200 whose body is decoded and
    read without an exception: with token total [tokens] before, the
    attempt returns [text] and leaves the total at [tokens']. *)
Definition early_return (E : environment) (url : str) (body : payload)
  (n : nat) (tokens text tokens' : value) : Prop :=
  exists r data,
    endpoint E n url body = PostResponse r
    /\ status r = 200
    /\ json_body r = Ok data
    /\ on_200 data tokens = Ok (text, tokens').

(** The events that the client produces. *)
Definition is_client_event (e : event) : bool :=
  match e with
  | EvPost _ _ _ | EvSleep (VInt _) | EvPrintRateLimited _
  | EvPrintApiError _ _ | EvPrintRequestError _ => true
  | _ => false
  end.

(** What one world keeps of another when only the client has acted. *)
Definition client_step (w w' : world) : Prop :=
  results w' = results w
  /\ permits w' = permits w
  /\ clock_reads w' = clock_reads w
  /\ exists evs, events w' = events w ++ evs
                 /\ forallb is_client_event evs = true.

Definition is_str (v : value) : Prop := exists s, v = VStr s.

Definition rate_limited_twice : environment :=
  scripted [PostResponse (status_response 429);
            PostResponse (status_response 429)]
           (PostResponse
              (ok_response (body_with_parts [text_part (VStr (py "answer"))]))).

Definition is_dict (v : value) : bool :=
  match v with
  | VDict _ => true
  | _ => false
  end.

(** The "text" values of the parts that carry one, in order. *)
Fixpoint texts (parts : list value) : list value :=
  match parts with
  | [] => []
  | VDict d :: rest =>
      match dict_lookup d (py "text") with
      | Some t => t :: texts rest
      | None => texts rest
      end
  | _ :: rest => texts rest
  end.

Definition two_texts : value :=
  body_with_parts [text_part (VStr (py "first"));
                   text_part (VStr (py "second"))].

(** What one world keeps of another across a simulation: the results and
    the semaphore are untouched, and only client events were added. *)
Definition quiet_step (w w' : world) : Prop :=
  results w' = results w
  /\ permits w' = permits w
  /\ exists evs, events w' = events w ++ evs
                 /\ forallb is_client_event evs = true.

(** Every text that an early return can hand back is a string on which the
    parse step succeeds. *)
Definition replies_parse (E : environment) : Prop :=
  forall url body n tokens text tokens',
    early_return E url body n tokens text tokens' ->
    exists s v, text = VStr s /\ parse s = Ok v.

(** The events of one pass through the loop of [run_category], whatever
    its end: a returned record, an exception from the simulation, or a
    wait for a permit that never comes. *)
Definition item_events (c : completion SimulationResult) (cfg : settings)
  (cat : str) (total i : Z) (sim_evs : list event) : list event :=
  match c with
  | Returns r =>
      [EvAcquire] ++ sim_evs
      ++ [EvAppendLocal (simulation_id r);
          EvAppendGlobal (simulation_id r);
          EvProgress cat (i + 1) total
            (Qred (Qred (inject_Z (i + 1) / inject_Z total) * 100))
            (outcome_icon (outcome r));
          EvSleep (VFloat (DELAY_BETWEEN_CALLS cfg));
          EvRelease]
  | Raises _ => [EvAcquire] ++ sim_evs ++ [EvRelease]
  | Blocks => []
  end.

Definition is_acquire (e : event) : bool :=
  match e with EvAcquire => true | _ => false end.

Definition is_release (e : event) : bool :=
  match e with EvRelease => true | _ => false end.

(** The pacing delay is the only sleep whose length is a float. *)
Definition is_pacing (e : event) : bool :=
  match e with EvSleep (VFloat _) => true | _ => false end.

Definition count (p : event -> bool) (l : list event) : nat :=
  List.length (filter p l).

(** A world in which the semaphore of [run_all] holds five permits. *)
Definition ready_world : world :=
  {| posts := 0; clock_reads := 0; events := [];
     total_tokens := VInt 0; results := []; permits := 5 |}.

(** The position of the first event that satisfies a test. *)
Fixpoint first_index (p : event -> bool) (l : list event) : option nat :=
  match l with
  | [] => None
  | e :: r => if p e then Some 0%nat else option_map S (first_index p r)
  end.

Definition is_progress (e : event) : bool :=
  match e with EvProgress _ _ _ _ _ => true | _ => false end.

(** The hypotheses of a category with their sequence numbers, the first
    one being [i + 1]. *)
Fixpoint numbered (i : Z) (hyps : list str) : list (Z * str) :=
  match hyps with
  | [] => []
  | h :: rest => (i + 1, h) :: numbered (i + 1) rest
  end.

(** What identifies a result: its category, its hypothesis and its
    identifier. *)
Definition key (r : SimulationResult) : str * str * str :=
  (category r, hypothesis r, simulation_id r).

Definition category_keys (dom cat : str) (i : Z) (hyps : list str)
  : list (str * str * str) :=
  map (fun nh => (cat, snd nh, make_sim_id dom cat (fst nh)))
      (numbered i hyps).

(** The keys of the results that the input asks for: category after
    category in the order given, hypothesis after hypothesis within each,
    numbered from 1. *)
Definition expected_keys (dom : str) (cats : list (str * list str))
  : list (str * str * str) :=
  flat_map (fun ch => category_keys dom (fst ch) 0 (snd ch)) cats.

Definition hypothesis_count (cats : list (str * list str)) : nat :=
  list_sum (map (fun ch => List.length (snd ch)) cats).

Definition pricing_arguments : arguments :=
  {| arg_domain := py "business";
     arg_category := Some (py "pricing");
     arg_count := None |}.

(** ** [_generate_summary]: the figures of the report

    The grouping, the three outcome counts and the ranking that the
    summary is built from.  The averages and the rendering of the lines
    are left out. *)

(** [categories[r.category].append(r)], the key being created on first
    use. *)
Fixpoint group_add (groups : list (str * list SimulationResult))
  (r : SimulationResult) : list (str * list SimulationResult) :=
  match groups with
  | [] => [(category r, [r])]
  | (c, sims) :: rest =>
      if str_eqb c (category r) then (c, sims ++ [r]) :: rest
      else (c, sims) :: group_add rest r
  end.

(** [# Group by category] *)
Definition group_by_category (rs : list SimulationResult)
  : list (str * list SimulationResult) :=
  fold_left group_add rs [].

(** [sum(1 for s in sims if s.outcome == "positive")] *)
Definition positive (sims : list SimulationResult) : Z :=
  len (filter (fun s => value_is_str (outcome s) (py "positive")) sims).

Definition negative (sims : list SimulationResult) : Z :=
  len (filter (fun s => value_is_str (outcome s) (py "negative")) sims).

Definition neutral (sims : list SimulationResult) : Z :=
  len sims - positive sims - negative sims.

(** [sorted(sims, key=lambda x: x.priority_score, reverse=True)]: the
    sort is stable, so it is the insertion of each element, in the order
    of the list, behind the elements whose score is not smaller. *)
Fixpoint insert_by_priority (x : SimulationResult)
  (l : list SimulationResult) : list SimulationResult :=
  match l with
  | [] => [x]
  | y :: r =>
      if priority_score y <? priority_score x then x :: y :: r
      else y :: insert_by_priority x r
  end.

Definition sorted_by_priority (sims : list SimulationResult)
  : list SimulationResult :=
  fold_left (fun acc x => insert_by_priority x acc) sims [].

(** [# Top 5 by priority] *)
Definition top_5 (sims : list SimulationResult) : list SimulationResult :=
  slice (sorted_by_priority sims) None (Some 5).

(** ** Vocabulary of the further properties *)

(** The verdict in which every field has its default. *)
Definition default_verdict : verdict :=
  {| v_outcome := VStr (py "neutral");
     v_confidence := FFin (1 # 2);
     v_insights := VList [];
     v_recommendations := VList [];
     v_risks := VList [];
     v_dependencies := VList [];
     v_priority_score := 50 |}.

(** The semaphore as the events show it: [holding held evs] follows the
    acquisitions and releases of [evs] from a state in which a unit is
    held or not, and fails when a unit is acquired while one is held or
    released while none is. *)
Fixpoint holding (held : bool) (evs : list event) : option bool :=
  match evs with
  | [] => Some held
  | EvAcquire :: r => if held then None else holding true r
  | EvRelease :: r => if held then holding false r else None
  | _ :: r => holding held r
  end.

(** The seconds that the client sleeps in a list of events. *)
Fixpoint slept (evs : list event) : Z :=
  match evs with
  | [] => 0
  | EvSleep (VInt n) :: r => n + slept r
  | _ :: r => slept r
  end.

(** The events that a list of events adds to those of a world. *)
Definition new_events (w w' : world) : list event :=
  skipn (List.length (events w)) (events w').

(** What [_save_results] wrote, category by category. *)
Definition saved_slices (evs : list event)
  : list (str * list SimulationResult) :=
  flat_map (fun e => match e with
                     | EvSaveResults c saved => [(c, saved)]
                     | _ => []
                     end) evs.

(** The exceptions that [float] and [int] raise on a value they refuse. *)
Definition coercion_error (e : exn) : Prop :=
  e = TypeError \/ e = ValueError \/ e = OverflowError.

(** A category of the input and what was saved for it agree: the same
    name, and one result for each hypothesis of the category, in order,
    numbered from 1. *)
Definition slice_of (dom : str) (ch : str * list str)
  (cs : str * list SimulationResult) : Prop :=
  fst cs = fst ch
  /\ map key (snd cs) = category_keys dom (fst ch) 0 (snd ch).

(** A reply whose confidence [float] refuses. *)
Definition refused_reply : environment :=
  answering (VStr (pyq "{'confidence': 'high'}")).

(** The world after one reading of the clock. *)
Definition after_clock (w : world) : world :=
  {| posts := posts w; clock_reads := S (clock_reads w);
     events := events w;
     total_tokens := total_tokens w; results := results w;
     permits := permits w |}.

(** The characters of a decimal numeral. *)
Definition numeral_chars (d : Decimal.uint) : str :=
  map N_of_ascii (list_ascii_of_string (NilEmpty.string_of_uint d)).

(** One step of the reading of a numeral, digit by digit. *)
Definition digit_step (a : Z) (c : char) : Z := a * 10 + digit_val c.

Ltac eval_digit :=
  unfold digit_step, digit_val;
  match goal with
  | |- context [Z.of_N ?x] =>
      let v := eval vm_compute in (Z.of_N x) in change (Z.of_N x) with v
  end.

(** The longest that a list of attempts can sleep. *)
Definition backoff_budget (attempts : list Z) : Z :=
  fold_right (fun a s => (a + 1) * 5 + s) 0 attempts.

(** The arguments without [--count]. *)
Definition without_count (args : arguments) : arguments :=
  {| arg_domain := arg_domain args;
     arg_category := arg_category args;
     arg_count := None |}.

(** What [--count n] keeps of a list of hypotheses. *)
Definition kept (n : Z) (hyps : list str) : list str :=
  if n =? 0 then hyps
  else if 0 <? n then firstn (Z.to_nat n) hyps
  else firstn (List.length hyps - Z.to_nat (- n)) hyps.

(** The two events with which [run_all] ends: the token total and the
    summary. *)
Definition is_report (e : event) : bool :=
  match e with
  | EvPrintTokens _ | EvSummary _ => true
  | _ => false
  end.

(** The exceptions that a simulation lets through. *)
Definition run_error (e : exn) : Prop :=
  e = AttributeError \/ coercion_error e.

(** What a stretch of a run over at most [n] hypotheses keeps and uses:
    the events [evs] are added, every unit of the semaphore that is taken
    is given back before the next is taken, nothing is reported, the
    categories [saved] are saved, at most three requests and thirty
    seconds of back-off go into each hypothesis, and the results only
    grow. *)
Definition run_step (n : nat) (saved : list str) (w w' : world)
  (evs : list event) : Prop :=
  events w' = events w ++ evs
  /\ permits w' = permits w
  /\ holding false evs = Some false
  /\ count is_report evs = 0%nat
  /\ map fst (saved_slices evs) = saved
  /\ (posts w <= posts w' <= posts w + 3 * n)%nat
  /\ 0 <= slept evs <= 30 * Z.of_nat n
  /\ exists new,
       results w' = results w ++ new /\ (List.length new <= n)%nat.

(** * Properties *)

(** ** Strings *)

Lemma str_eqb_eq (a b : str) : str_eqb a b = true <-> a = b.
Proof.
  unfold str_eqb. destruct (list_eq_dec N.eq_dec a b); split; congruence.
Qed.

Lemma len_app {A} (a b : list A) : len (a ++ b) = len a + len b.
Proof. unfold len. rewrite length_app. lia. Qed.

Lemma len_nonneg {A} (a : list A) : 0 <= len a.
Proof. unfold len. lia. Qed.

Lemma len_cons {A} (x : A) (a : list A) : len (x :: a) = len a + 1.
Proof. unfold len. simpl. lia. Qed.

Lemma find_notin c s : ~ In c s -> find c s = -1.
Proof.
  induction s as [|x r IH]; simpl; intros H; [reflexivity|].
  destruct (N.eqb_spec x c) as [->|_].
  - exfalso. apply H. now left.
  - rewrite IH by (intros Hin; apply H; now right). reflexivity.
Qed.

Lemma rfind_notin c s : ~ In c s -> rfind c s = -1.
Proof.
  induction s as [|x r IH]; simpl; intros H; [reflexivity|].
  rewrite IH by (intros Hin; apply H; now right). simpl.
  destruct (N.eqb_spec x c) as [->|_]; [|reflexivity].
  exfalso. apply H. now left.
Qed.

(** The first occurrence, when nothing before it matches. *)
Lemma find_app_first c pre r :
  ~ In c pre -> find c (pre ++ c :: r) = len pre.
Proof.
  induction pre as [|x p IH]; simpl; intros H.
  - now rewrite N.eqb_refl.
  - destruct (N.eqb_spec x c) as [->|_].
    + exfalso. apply H. now left.
    + rewrite IH by (intros Hin; apply H; now right).
      rewrite len_cons.
      destruct (Z.ltb_spec (len p) 0) as [Hlt|_]; [|reflexivity].
      pose proof (len_nonneg p). lia.
Qed.

(** The last occurrence, when nothing after it matches. *)
Lemma rfind_app_last c s post :
  ~ In c post -> rfind c (s ++ c :: post) = len s.
Proof.
  intros H. induction s as [|x r IH]; simpl.
  - rewrite (rfind_notin c post H). simpl. now rewrite N.eqb_refl.
  - rewrite IH, len_cons.
    destruct (Z.leb_spec 0 (len r)) as [_|Hlt]; [reflexivity|].
    pose proof (len_nonneg r). lia.
Qed.

Lemma skipn_length_app {A} (a b : list A) : skipn (List.length a) (a ++ b) = b.
Proof. induction a; simpl; auto. Qed.

Lemma firstn_length_app {A} (a b : list A) :
  firstn (List.length a) (a ++ b) = a.
Proof. induction a; simpl; [now destruct b|]. now f_equal. Qed.

(** Slicing a text at the bounds of a part of it gives that part. *)
Lemma slice_middle {A} (pre mid post : list A) :
  slice (pre ++ mid ++ post) (Some (len pre)) (Some (len pre + len mid))
  = mid.
Proof.
  unfold slice, clamp_index. rewrite !len_app.
  pose proof (len_nonneg pre). pose proof (len_nonneg mid).
  pose proof (len_nonneg post).
  destruct (Z.ltb_spec (len pre) 0); [lia|].
  destruct (Z.ltb_spec (len pre + len mid) 0); [lia|].
  rewrite !Z.min_r, !Z.max_r by lia.
  replace (len pre + len mid - len pre) with (len mid) by lia.
  unfold len. rewrite !Nat2Z.id.
  now rewrite skipn_length_app, firstn_length_app.
Qed.

(** ** The parse step *)

(** With no opening brace before the object and no closing brace after
    it, the parse step hands exactly the object to the decoder. *)
Lemma locate_and_load_embedded pre body post :
  ~ In (ch "{") pre -> ~ In (ch "}") post ->
  locate_and_load (pre ++ ([ch "{"] ++ body ++ [ch "}"]) ++ post)
  = Json.loads ([ch "{"] ++ body ++ [ch "}"]).
Proof.
  intros Hpre Hpost. unfold locate_and_load.
  assert (Hfind : find (ch "{")
                    (pre ++ ([ch "{"] ++ body ++ [ch "}"]) ++ post)
                  = len pre).
  { simpl. now apply find_app_first. }
  assert (Hrfind : rfind (ch "}")
                     (pre ++ ([ch "{"] ++ body ++ [ch "}"]) ++ post)
                   = len pre + len body + 1).
  { replace (pre ++ ([ch "{"] ++ body ++ [ch "}"]) ++ post)
      with ((pre ++ [ch "{"] ++ body) ++ ch "}" :: post)
      by (simpl; repeat rewrite <- app_assoc; reflexivity).
    rewrite rfind_app_last by assumption.
    rewrite !len_app. change (len [ch "{"]) with 1. lia. }
  rewrite Hfind, Hrfind.
  pose proof (len_nonneg pre). pose proof (len_nonneg body).
  destruct (Z.geb_spec (len pre) 0); [|lia].
  destruct (Z.gtb_spec (len pre + len body + 1 + 1) (len pre)); [|lia].
  simpl andb. cbv iota.
  replace (len pre + len body + 1 + 1)
    with (len pre + len ([ch "{"] ++ body ++ [ch "}"])).
  - now rewrite slice_middle.
  - rewrite !len_app. change (len [ch "{"]) with 1.
    change (len [ch "}"]) with 1. lia.
Qed.

Lemma notin_by_test (c : char) (s : str) :
  existsb (N.eqb c) s = false -> ~ In c s.
Proof.
  intros H Hin.
  assert (existsb (N.eqb c) s = true) as Ht
    by (apply existsb_exists; exists c; split; [assumption|apply N.eqb_refl]).
  congruence.
Qed.

(** C7 (amended).  A JSON object embedded in a larger text, with no
    opening brace in the text before it and no closing brace in the text
    after it, is parsed to the same field values (outcome, confidence,
    priority_score, the four lists, summary) as decoding the object
    directly. *)
Theorem parse_embedded_object (pre body post : str) (data : value) :
  ~ In (ch "{") pre ->
  ~ In (ch "}") post ->
  Json.loads ([ch "{"] ++ body ++ [ch "}"]) = Ok data ->
  parse (pre ++ ([ch "{"] ++ body ++ [ch "}"]) ++ post)
  = decode_directly ([ch "{"] ++ body ++ [ch "}"]).
Proof.
  intros Hpre Hpost Hload.
  unfold parse, parse_data, decode_directly.
  rewrite (locate_and_load_embedded pre body post Hpre Hpost), Hload.
  reflexivity.
Qed.

Lemma parse_embedded_object_witness :
  parse (py "Here is my answer: "
         ++ ([ch "{"]
             ++ pyq "'outcome':'positive','confidence':0.9,'priority_score':85"
             ++ [ch "}"])
         ++ py " extra trailing text")
  = decode_directly
      ([ch "{"]
       ++ pyq "'outcome':'positive','confidence':0.9,'priority_score':85"
       ++ [ch "}"]).
Proof.
  apply (parse_embedded_object
           (py "Here is my answer: ")
           (pyq "'outcome':'positive','confidence':0.9,'priority_score':85")
           (py " extra trailing text")
           (VDict [(py "outcome", VStr (py "positive"));
                   (py "confidence", VFloat (FFin (9 # 10)));
                   (py "priority_score", VInt 85)])).
  - apply notin_by_test. vm_compute. reflexivity.
  - apply notin_by_test. vm_compute. reflexivity.
  - vm_compute. reflexivity.
Defined.

(** The scenario of the specification: the fields come out of the
    object, and the trailing text leaves no trace. *)
Example parse_scenario :
  parse (pyq "Here is my answer: {'outcome':'positive','confidence':0.9,'priority_score':85} extra trailing text")
  = Ok ({| v_outcome := VStr (py "positive");
           v_confidence := FFin (9 # 10);
           v_insights := VList [];
           v_recommendations := VList [];
           v_risks := VList [];
           v_dependencies := VList [];
           v_priority_score := 85 |}, VStr []).
Proof. vm_compute. reflexivity. Qed.

(** C7 (counterexample).  A closing brace in the trailing noise moves the
    end of the located text past the object: the decoder rejects it and
    the fields fall back to their defaults. *)
Lemma parse_embedded_object_brace_in_noise :
  Json.loads (pyq "{'outcome':'positive','confidence':0.9,'priority_score':85}")
  = Ok (VDict [(py "outcome", VStr (py "positive"));
               (py "confidence", VFloat (FFin (9 # 10)));
               (py "priority_score", VInt 85)])
  /\ parse (py "Here is my answer: "
            ++ pyq "{'outcome':'positive','confidence':0.9,'priority_score':85}"
            ++ py " (see above :-})")
     <> decode_directly
          (pyq "{'outcome':'positive','confidence':0.9,'priority_score':85}").
Proof.
  split; [vm_compute; reflexivity|].
  vm_compute. discriminate.
Qed.

(** C1 (code bug).  [float] and [int] are applied outside the [try]
    block, so a reply whose JSON object gives 'confidence' or
    'priority_score' a value that does not coerce makes the parse step
    raise, and [run_simulation] with it: no record is produced. *)
Theorem parse_raises_on_failed_coercion :
  parse (pyq "{'confidence': 'high'}") = Raise ValueError
  /\ parse (pyq "{'priority_score': 'urgent'}") = Raise ValueError
  /\ parse (pyq "{'confidence': null}") = Raise TypeError
  /\ fst (run_simulation (answering (VStr (pyq "{'confidence': 'high'}")))
            business_engine open_client (py "viability")
            (py "Subscription pricing model") 1 initial_world)
     = Raises ValueError.
Proof. repeat split; vm_compute; reflexivity. Qed.

(** A text that begins with an opening brace decodes to an object or not
    at all. *)
Lemma loads_of_object_text s :
  Json.loads (ch "{" :: s) = Raise JSONDecodeError
  \/ exists d, Json.loads (ch "{" :: s) = Ok (VDict d).
Proof.
  unfold Json.loads. change (ch "{") with 123%N. cbv iota beta.
  change (Json.skip_ws (123%N :: s)) with (123%N :: s).
  cbn [Json.scan_once].
  change ((123 =? 34)%N) with false. change ((123 =? 123)%N) with true.
  cbv iota.
  destruct (Json.skip_ws s) as [|x r1]; [left; reflexivity|].
  destruct (N.eqb x 125).
  - destruct (Json.skip_ws r1); [right; eauto|left; reflexivity].
  - destruct (N.eqb x 34); [|left; reflexivity].
    match goal with
    | |- context [Json.object_members ?f ?t ?a] =>
        destruct (Json.object_members f t a) as [[pairs rest]|]
    end; [|left; reflexivity].
    destruct (Json.skip_ws rest); [right; eauto|left; reflexivity].
Qed.

Lemma find_split c s :
  0 <= find c s ->
  exists pre post, s = pre ++ c :: post /\ len pre = find c s.
Proof.
  induction s as [|x r IH]; simpl; [lia|].
  destruct (N.eqb_spec x c) as [->|Hne]; intros H.
  - exists [], r. split; reflexivity.
  - destruct (Z.ltb_spec (find c r) 0) as [Hlt|Hge]; [lia|].
    destruct (IH Hge) as (pre & post & Hs & Hl).
    exists (x :: pre), post. split.
    + simpl. now f_equal.
    + rewrite len_cons. lia.
Qed.

Lemma rfind_lt c s : rfind c s < len s.
Proof.
  induction s as [|x r IH]; [reflexivity|].
  simpl. rewrite len_cons. pose proof (len_nonneg r).
  destruct (Z.leb_spec 0 (rfind c r)); [lia|].
  destruct (x =? c)%N; lia.
Qed.

(** The text that the parse step hands to the decoder begins with the
    opening brace it has found. *)
Lemma located_text_head raw :
  find (ch "{") raw >= 0 ->
  rfind (ch "}") raw + 1 > find (ch "{") raw ->
  exists t,
    slice raw (Some (find (ch "{") raw)) (Some (rfind (ch "}") raw + 1))
    = ch "{" :: t.
Proof.
  intros Hs He.
  destruct (find_split (ch "{") raw ltac:(lia)) as (pre & post & Hraw & Hl).
  pose proof (rfind_lt (ch "}") raw) as Hlt.
  set (js := find (ch "{") raw) in *.
  set (je := rfind (ch "}") raw + 1) in *.
  assert (Hn : len raw = len pre + (len post + 1))
    by (rewrite Hraw, len_app, len_cons; reflexivity).
  pose proof (len_nonneg post).
  unfold slice, clamp_index.
  destruct (Z.ltb_spec js 0); [lia|].
  destruct (Z.ltb_spec je 0); [lia|].
  rewrite !Z.min_r, !Z.max_r by lia.
  replace (Z.to_nat js) with (List.length pre)
    by (rewrite <- Hl; unfold len; now rewrite Nat2Z.id).
  replace (skipn (List.length pre) raw) with (ch "{" :: post)
    by (rewrite Hraw; symmetry; apply skipn_length_app).
  destruct (Z.to_nat (je - js)) as [|m] eqn:Hm; [lia|].
  simpl. eauto.
Qed.

(** The parse step always comes out with an object for [data]: a decode
    failure and missing braces are both swallowed. *)
Lemma parse_data_total raw : exists d, parse_data raw = Ok (VDict d).
Proof.
  unfold parse_data, locate_and_load.
  destruct (Z.geb_spec (find (ch "{") raw) 0) as [Hs|Hs];
    [|simpl; eauto].
  destruct (Z.gtb_spec (rfind (ch "}") raw + 1) (find (ch "{") raw))
    as [He|He]; [|simpl; eauto].
  cbn [andb]. destruct (located_text_head raw ltac:(lia) ltac:(lia)) as [t Ht].
  rewrite Ht.
  destruct (loads_of_object_text t) as [Herr|[d Hd]].
  - rewrite Herr. eauto.
  - rewrite Hd. eauto.
Qed.

(** So, what remains of the parse step after [data] is the two numeric
    coercions, and these are the only way for it to raise. *)
Lemma parse_raises_only_on_coercion raw :
  exists d,
    parse_data raw = Ok (VDict d)
    /\ parse raw
       = (conf <- py_float (dict_get d (py "confidence")
                              (VFloat (FFin (1 # 2)))) ;;
          prio <- py_int (dict_get d (py "priority_score") (VInt 50)) ;;
          Ok ({| v_outcome := dict_get d (py "outcome") NEUTRAL;
                 v_confidence := conf;
                 v_insights := dict_get d (py "insights") (VList []);
                 v_recommendations :=
                   dict_get d (py "recommendations") (VList []);
                 v_risks := dict_get d (py "risks") (VList []);
                 v_dependencies := dict_get d (py "dependencies") (VList []);
                 v_priority_score := prio |},
              dict_get d (py "summary") (VStr []))).
Proof.
  destruct (parse_data_total raw) as [d Hd]. exists d.
  split; [assumption|]. unfold parse. rewrite Hd.
  unfold extract_fields. simpl.
  destruct (py_float _); simpl; [|reflexivity].
  destruct (py_int _); reflexivity.
Qed.

(** ** Reasoning about effects *)

Lemma mbind_returns {A B} (m : M A) (k : A -> M B) w b w' :
  mbind m k w = (Returns b, w') ->
  exists a w1, m w = (Returns a, w1) /\ k a w1 = (Returns b, w').
Proof.
  unfold mbind. destruct (m w) as [[a|e|] w1]; intros H; try discriminate.
  now exists a, w1.
Qed.

Lemma lift_returns {A} (r : result A) w a w' :
  lift r w = (Returns a, w') -> r = Ok a /\ w' = w.
Proof.
  destruct r; unfold lift, ret, raise; intros H; inversion H; auto.
Qed.

Lemma ret_returns {A} (x : A) w a w' :
  ret x w = (Returns a, w') -> a = x /\ w' = w.
Proof. unfold ret. intros H. inversion H. auto. Qed.

(** A record that [run_simulation] returns carries the parse of the raw
    text it carries, and the identity of the hypothesis it was run for. *)
Lemma run_simulation_returns E eng client cat hyp n w r w' :
  run_simulation E eng client cat hyp n w = (Returns r, w') ->
  parse (raw_response r)
  = Ok (verdict_of r, dict_get (metadata r) (py "summary") VNone)
  /\ simulation_id r = make_sim_id (self_domain eng) cat n
  /\ domain r = self_domain eng
  /\ category r = cat
  /\ hypothesis r = hyp.
Proof.
  intros H. unfold run_simulation in H.
  apply mbind_returns in H as (start & w1 & _ & H).
  apply mbind_returns in H as (reply & w2 & _ & H).
  apply mbind_returns in H as (stop & w3 & _ & H).
  apply mbind_returns in H as (raw & w4 & Hraw & H).
  apply mbind_returns in H as (data & w5 & Hdata & H).
  apply mbind_returns in H as (v & w6 & Hv & H).
  apply mbind_returns in H as (ts & w7 & _ & H).
  apply mbind_returns in H as (summary & w8 & Hs & H).
  apply lift_returns in Hdata as [Hdata _].
  apply lift_returns in Hv as [Hv _].
  apply lift_returns in Hs as [Hs _].
  apply ret_returns in H as [-> _]. simpl.
  repeat split.
  unfold parse. rewrite Hdata. simpl. rewrite Hv. simpl. rewrite Hs. simpl.
  destruct v; reflexivity.
Qed.

(** What the parse step stores for the outcome and the confidence. *)
Lemma parse_outcome_confidence raw v s :
  parse raw = Ok (v, s) ->
  ((find (ch "{") raw < 0
    \/ rfind (ch "}") raw + 1 <= find (ch "{") raw
    \/ locate_and_load raw = Raise JSONDecodeError) ->
   v_outcome v = NEUTRAL /\ v_confidence v = FFin (1 # 2))
  /\ (forall d, locate_and_load raw = Ok (VDict d) ->
      v_outcome v = dict_get d (py "outcome") NEUTRAL
      /\ py_float (dict_get d (py "confidence") (VFloat (FFin (1 # 2))))
         = Ok (v_confidence v)).
Proof.
  unfold parse. intros H.
  assert (Hfields : forall d, parse_data raw = Ok (VDict d) ->
            v_outcome v = dict_get d (py "outcome") NEUTRAL
            /\ py_float (dict_get d (py "confidence") (VFloat (FFin (1 # 2))))
               = Ok (v_confidence v)).
  { intros d Hd. rewrite Hd in H. simpl in H.
    unfold extract_fields in H. simpl in H.
    destruct (py_float (dict_get d (py "confidence") (VFloat (FFin (1 # 2)))))
      as [conf|e] eqn:Hc; simpl in H; [|discriminate].
    destruct (py_int (dict_get d (py "priority_score") (VInt 50)))
      as [prio|e] eqn:Hp; simpl in H; [|discriminate].
    inversion H; subst. simpl. auto. }
  split.
  - intros Hfail.
    assert (Hd : parse_data raw = Ok (VDict NO_JSON_FOUND)
                 \/ parse_data raw = Ok (VDict INVALID_JSON)).
    { unfold parse_data. destruct Hfail as [Hlt|[Hle|Herr]].
      - left. unfold locate_and_load.
        destruct (Z.geb_spec (find (ch "{") raw) 0); [lia|reflexivity].
      - left. unfold locate_and_load.
        destruct (Z.gtb_spec (rfind (ch "}") raw + 1) (find (ch "{") raw));
          [lia|]. now rewrite andb_false_r.
      - right. now rewrite Herr. }
    destruct Hd as [Hd|Hd]; destruct (Hfields _ Hd) as [Ho Hc];
      rewrite Ho;
      match type of Hc with
      | ?l = _ => let l' := eval vm_compute in l in change l with l' in Hc
      end;
      inversion Hc; split; reflexivity.
  - intros d Hd. apply Hfields. unfold parse_data. now rewrite Hd.
Qed.

(** C8 (amended).  In every record that [run_simulation] produces, the
    outcome is "neutral" when no JSON object is located in the raw text,
    when its decoding fails, or when the decoded object has no "outcome",
    and is otherwise the object's "outcome" unchanged; the confidence is
    0.5 in the first two cases and when the object has no "confidence",
    and is otherwise [float] of the object's "confidence".  Neither value
    is validated. *)
Theorem simulation_outcome_confidence E eng client cat hyp n w r w' :
  run_simulation E eng client cat hyp n w = (Returns r, w') ->
  ((find (ch "{") (raw_response r) < 0
    \/ rfind (ch "}") (raw_response r) + 1 <= find (ch "{") (raw_response r)
    \/ locate_and_load (raw_response r) = Raise JSONDecodeError) ->
   outcome r = NEUTRAL /\ confidence r = FFin (1 # 2))
  /\ (forall d, locate_and_load (raw_response r) = Ok (VDict d) ->
      (dict_lookup d (py "outcome") = None -> outcome r = NEUTRAL)
      /\ (forall o, dict_lookup d (py "outcome") = Some o -> outcome r = o)
      /\ (dict_lookup d (py "confidence") = None ->
          confidence r = FFin (1 # 2))
      /\ (forall c, dict_lookup d (py "confidence") = Some c ->
          py_float c = Ok (confidence r))).
Proof.
  intros H. apply run_simulation_returns in H as (Hparse & _).
  apply parse_outcome_confidence in Hparse as [Hfail Hok]. simpl in *.
  split; [exact Hfail|].
  intros d Hd. destruct (Hok d Hd) as [Ho Hc]. unfold dict_get in Ho, Hc.
  repeat split.
  - intros Hn. now rewrite Hn in Ho.
  - intros o Hs. now rewrite Hs in Ho.
  - intros Hn. rewrite Hn in Hc. simpl in Hc. now inversion Hc.
  - intros c Hs. now rewrite Hs in Hc.
Qed.

Lemma simulation_outcome_confidence_witness :
  exists r w',
    run_simulation (answering (VStr (pyq "I think {'confidence': 0.9} fits")))
      business_engine open_client (py "viability")
      (py "Subscription pricing model") 1 initial_world = (Returns r, w')
    /\ outcome r = NEUTRAL
    /\ confidence r = FFin (9 # 10).
Proof.
  eexists. eexists. split; [vm_compute; reflexivity|].
  match goal with
  | |- outcome ?r = _ /\ _ =>
      destruct (simulation_outcome_confidence
                  (answering (VStr (pyq "I think {'confidence': 0.9} fits")))
                  business_engine open_client (py "viability")
                  (py "Subscription pricing model") 1 initial_world r
                  (snd (run_simulation
                          (answering
                             (VStr (pyq "I think {'confidence': 0.9} fits")))
                          business_engine open_client (py "viability")
                          (py "Subscription pricing model") 1 initial_world)))
        as [_ Hok]; [vm_compute; reflexivity|]
  end.
  destruct (Hok [(py "confidence", VFloat (FFin (9 # 10)))])
    as (Ho & _ & _ & Hc); [vm_compute; reflexivity|].
  split.
  - apply Ho. vm_compute. reflexivity.
  - assert (Hc' := Hc (VFloat (FFin (9 # 10)))
                        ltac:(vm_compute; reflexivity)).
    unfold py_float in Hc'. congruence.
Defined.

(** C8 (counterexample).  An outcome outside the three categories and a
    confidence outside the unit interval go into the record as they
    are. *)
Lemma simulation_outcome_confidence_unvalidated :
  exists r w',
    run_simulation
      (answering (VStr (pyq "{'outcome': 'maybe', 'confidence': 5}")))
      business_engine open_client (py "viability")
      (py "Subscription pricing model") 1 initial_world = (Returns r, w')
    /\ ~ valid_outcome (outcome r)
    /\ ~ in_unit_interval (confidence r).
Proof.
  eexists. eexists. split; [vm_compute; reflexivity|]. split.
  - intros [H|[H|H]]; vm_compute in H; discriminate.
  - simpl. intros [_ H]. vm_compute in H. apply H. reflexivity.
Qed.

(** ** The retry loop *)

Lemma client_step_refl w : client_step w w.
Proof.
  repeat split. exists []. now rewrite app_nil_r.
Qed.

Lemma client_step_trans w1 w2 w3 :
  client_step w1 w2 -> client_step w2 w3 -> client_step w1 w3.
Proof.
  intros (Hr & Hp & Hc & evs & He & Hf) (Hr' & Hp' & Hc' & evs' & He' & Hf').
  repeat split; try congruence.
  exists (evs ++ evs'). rewrite He', He, app_assoc. split; [reflexivity|].
  rewrite forallb_app, Hf, Hf'. reflexivity.
Qed.

(** One pass of the loop never raises.  It returns a text exactly on an
    early return, and then one request went out; otherwise the token
    total is untouched. *)
Lemma attempt_body_spec E c url body a w :
  exists o w',
    attempt_body E c url body a w = (Returns o, w')
    /\ client_step w w'
    /\ match o with
       | Some text =>
           session c = true
           /\ early_return E url body (posts w) (total_tokens w) text
                (total_tokens w')
           /\ posts w' = S (posts w)
       | None =>
           total_tokens w' = total_tokens w
           /\ (session c = true ->
               posts w' = S (posts w)
               /\ forall text tokens',
                   ~ early_return E url body (posts w) (total_tokens w)
                       text tokens')
           /\ (session c = false -> posts w' = posts w)
       end.
Proof.
  unfold attempt_body, try_except, mbind, post, lift, get_world,
    set_total_tokens, emit, sleep, ret, raise, client_step, early_return.
  destruct (session c) eqn:Hs; simpl.
  2: { eexists. eexists. split; [reflexivity|]. simpl.
       repeat split; try discriminate.
       eexists. split; [rewrite <- app_assoc; reflexivity|reflexivity]. }
  destruct (endpoint E (posts w) url body) as [e|r] eqn:He; simpl.
  { eexists. eexists. split; [reflexivity|]. simpl.
    repeat split; try discriminate.
    - eexists. split; [rewrite <- !app_assoc; reflexivity|reflexivity].
    - intros text tokens' (r & data & Hr & _). discriminate. }
  destruct (Z.eqb_spec (status r) 200) as [H200|H200]; simpl.
  - destruct (json_body r) as [data|e] eqn:Hj; simpl.
    + destruct (on_200 data (total_tokens w)) as [[text tokens']|e] eqn:Ho;
        simpl.
      * eexists. eexists. split; [reflexivity|]. simpl.
        repeat split.
        -- eexists. split; [reflexivity|reflexivity].
        -- exists r, data. auto.
      * eexists. eexists. split; [reflexivity|]. simpl.
        repeat split; try discriminate.
        -- eexists. split; [rewrite <- !app_assoc; reflexivity|reflexivity].
        -- intros text tokens' (r' & data' & Hr & _ & Hj' & Ho').
           inversion Hr; subst r'. congruence.
    + eexists. eexists. split; [reflexivity|]. simpl.
      repeat split; try discriminate.
      * eexists. split; [rewrite <- !app_assoc; reflexivity|reflexivity].
      * intros text tokens' (r' & data' & Hr & _ & Hj' & _).
        inversion Hr; subst r'. congruence.
  - assert (Hno : forall text tokens',
               ~ (exists r0 data,
                     PostResponse r = PostResponse r0 /\ status r0 = 200
                     /\ json_body r0 = Ok data
                     /\ on_200 data (total_tokens w) = Ok (text, tokens'))).
    { intros text tokens' (r' & data' & Hr & Hst & _).
      inversion Hr; subst r'. contradiction. }
    destruct (Z.eqb_spec (status r) 429) as [H429|H429]; simpl.
    + eexists. eexists. split; [reflexivity|]. simpl.
      repeat split; try discriminate; try apply Hno.
      eexists. split; [rewrite <- !app_assoc; reflexivity|reflexivity].
    + destruct (text_body r) as [text|e] eqn:Ht; simpl.
      * eexists. eexists. split; [reflexivity|]. simpl.
        repeat split; try discriminate; try apply Hno.
        eexists. split; [rewrite <- !app_assoc; reflexivity|reflexivity].
      * eexists. eexists. split; [reflexivity|]. simpl.
        repeat split; try discriminate; try apply Hno.
        eexists. split; [rewrite <- !app_assoc; reflexivity|reflexivity].
Qed.

(** The loop as a whole: it never raises; it returns at the first request
    whose answer is an early return, and the failure sentinel when there
    is none among the attempts. *)
Lemma attempts_loop_spec E c url body attempts : forall w,
  exists v w',
    attempts_loop E c url body attempts w = (Returns v, w')
    /\ client_step w w'
    /\ ((v = VStr FAILED_AFTER_RETRIES
         /\ total_tokens w' = total_tokens w
         /\ (session c = true ->
             posts w' = (posts w + List.length attempts)%nat
             /\ forall k text tokens',
                 (k < List.length attempts)%nat ->
                 ~ early_return E url body (posts w + k) (total_tokens w)
                     text tokens')
         /\ (session c = false -> posts w' = posts w))
        \/ (session c = true
            /\ exists k,
                (k < List.length attempts)%nat
                /\ early_return E url body (posts w + k) (total_tokens w) v
                     (total_tokens w')
                /\ posts w' = (posts w + k + 1)%nat
                /\ forall j text tokens',
                    (j < k)%nat ->
                    ~ early_return E url body (posts w + j) (total_tokens w)
                        text tokens')).
Proof.
  induction attempts as [|a rest IH]; intros w; simpl.
  - exists (VStr FAILED_AFTER_RETRIES), w. split; [reflexivity|].
    split; [apply client_step_refl|]. left.
    repeat split; auto; try lia.
  - destruct (attempt_body_spec E c url body a w) as (o & w1 & Hrun & Hstep & Ho).
    unfold mbind. rewrite Hrun. destruct o as [text|].
    + destruct Ho as (Hs & Hearly & Hposts).
      exists text, w1. split; [reflexivity|]. split; [assumption|].
      right. split; [assumption|]. exists 0%nat.
      rewrite Nat.add_0_r. repeat split; auto; try lia.
    + destruct Ho as (Htok & Hopen & Hclosed).
      destruct (IH w1) as (v & w2 & Hloop & Hstep2 & Hcases).
      exists v, w2. split; [assumption|].
      split; [eapply client_step_trans; eassumption|].
      destruct Hcases as [(Hv & Htok2 & Hopen2 & Hclosed2)
                         |(Hs & k & Hk & Hearly & Hposts & Hbefore)].
      * left. split; [assumption|]. split; [congruence|]. split.
        -- intros Hs. destruct (Hopen Hs) as [Hp1 Hno1].
           destruct (Hopen2 Hs) as [Hp2 Hno2].
           split; [lia|]. intros k text tokens' Hk.
           destruct k as [|k].
           ++ rewrite Nat.add_0_r. apply Hno1.
           ++ specialize (Hno2 k text tokens' ltac:(lia)).
              rewrite Hp1, Htok in Hno2.
              replace (posts w + S k)%nat with (S (posts w) + k)%nat by lia.
              exact Hno2.
        -- intros Hs. rewrite (Hclosed2 Hs). auto.
      * right. split; [assumption|]. destruct (Hopen Hs) as [Hp1 Hno1].
        exists (S k). split; [lia|]. rewrite Hp1, Htok in Hearly.
        replace (posts w + S k)%nat with (S (posts w) + k)%nat by lia.
        repeat split; auto; try lia.
        intros j text tokens' Hj. destruct j as [|j].
        -- rewrite Nat.add_0_r. apply Hno1.
        -- specialize (Hbefore j text tokens' ltac:(lia)).
           rewrite Hp1, Htok in Hbefore.
           replace (posts w + S j)%nat with (S (posts w) + j)%nat by lia.
           exact Hbefore.
Qed.

Lemma early_return_functional E url body n tokens t1 k1 t2 k2 :
  early_return E url body n tokens t1 k1 ->
  early_return E url body n tokens t2 k2 ->
  t1 = t2 /\ k1 = k2.
Proof.
  intros (r1 & d1 & Hr1 & _ & Hj1 & Ho1) (r2 & d2 & Hr2 & _ & Hj2 & Ho2).
  rewrite Hr1 in Hr2. inversion Hr2; subst r2.
  rewrite Hj1 in Hj2. inversion Hj2; subst d2.
  rewrite Ho1 in Ho2. inversion Ho2. auto.
Qed.

Lemma generate_spec E c prompt temp w :
  exists v w',
    generate E c prompt temp w = (Returns v, w')
    /\ client_step w w'
    /\ ((v = VStr FAILED_AFTER_RETRIES
         /\ total_tokens w' = total_tokens w
         /\ (session c = true ->
             posts w' = (posts w + 3)%nat
             /\ forall k text tokens',
                 (k < 3)%nat ->
                 ~ early_return E (request_url c) (make_payload c prompt temp)
                     (posts w + k) (total_tokens w) text tokens')
         /\ (session c = false -> posts w' = posts w))
        \/ (session c = true
            /\ exists k,
                (k < 3)%nat
                /\ early_return E (request_url c) (make_payload c prompt temp)
                     (posts w + k) (total_tokens w) v (total_tokens w')
                /\ posts w' = (posts w + k + 1)%nat
                /\ forall j text tokens',
                    (j < k)%nat ->
                    ~ early_return E (request_url c)
                        (make_payload c prompt temp)
                        (posts w + j) (total_tokens w) text tokens')).
Proof.
  unfold generate.
  exact (attempts_loop_spec E c (request_url c) (make_payload c prompt temp)
           (range RETRY_ATTEMPTS) w).
Qed.



(** An attempt answered by status 429 prints, sleeps five seconds times
    the attempt number counted from one, and lets the loop go on. *)
Lemma attempt_body_429 E c url body i w r :
  session c = true ->
  endpoint E (posts w) url body = PostResponse r ->
  status r = 429 ->
  exists w',
    attempt_body E c url body i w = (Returns None, w')
    /\ events w' = events w ++ [EvPost (posts w) url body;
                                EvPrintRateLimited ((i + 1) * 5);
                                EvSleep (VInt ((i + 1) * 5))]
    /\ posts w' = S (posts w).
Proof.
  intros Hs He H429.
  unfold attempt_body, try_except, mbind, post, emit, sleep, ret.
  rewrite Hs, He. simpl. rewrite H429. simpl.
  eexists. split; [reflexivity|]. simpl.
  split; [now rewrite <- !app_assoc|reflexivity].
Qed.



(** Two answers 429 and then a 200: the sleeps are 5 and 10 seconds, and
    the text comes back on the third request. *)
Example generate_after_two_429 :
  let run := generate rate_limited_twice open_client (py "prompt")
               default_temperature initial_world in
  fst run = Returns (VStr (py "answer"))
  /\ posts (snd run) = 3%nat
  /\ filter (fun e => match e with EvSleep _ => true | _ => false end)
       (events (snd run))
     = [EvSleep (VInt 5); EvSleep (VInt 10)].
Proof. vm_compute. repeat split; reflexivity. Qed.

(** An endpoint that always answers 500: the failure sentinel after
    exactly three requests, with no sleep in between. *)
Example generate_always_500 :
  let run := generate (always (PostResponse (status_response 500)))
               open_client (py "prompt") default_temperature initial_world in
  fst run = Returns (VStr FAILED_AFTER_RETRIES)
  /\ posts (snd run) = 3%nat
  /\ filter (fun e => match e with EvSleep _ => true | _ => false end)
       (events (snd run))
     = [].
Proof. vm_compute. repeat split; reflexivity. Qed.


(** ** The text that a status 200 yields *)

Lemma last_cons_default {A} (l : list A) : forall t t0,
  last (t :: l) t0 = last l t.
Proof.
  induction l as [|y ys IH]; intros t t0; [reflexivity|].
  change (last (y :: ys) t0 = last (y :: ys) t).
  now rewrite (IH y t0), (IH y t).
Qed.

Lemma text_of_parts_dict d rest t0 :
  text_of_parts (VDict d :: rest) t0
  = text_of_parts rest
      (match dict_lookup d (py "text") with Some t => t | None => t0 end).
Proof.
  simpl. destruct (dict_lookup d (py "text")); reflexivity.
Qed.

(** Over parts that are all objects, the loop ends on the last "text". *)
Lemma text_of_parts_last parts : forall t0,
  forallb is_dict parts = true ->
  text_of_parts parts t0 = Ok (last (texts parts) t0).
Proof.
  induction parts as [|part rest IH]; intros t0 Hd; [reflexivity|].
  simpl in Hd. apply andb_prop in Hd as [Hp Hrest].
  destruct part as [| | | | | |d]; try discriminate.
  rewrite text_of_parts_dict, (IH _ Hrest). cbn [texts].
  destruct (dict_lookup d (py "text")) as [t|]; [|reflexivity].
  now rewrite last_cons_default.
Qed.

(** C5 (amended).  On a status 200 whose body has the expected nested
    structure (candidates[0].content.parts is a list of objects, and the
    usage metadata, when there is any, adds to the token total),
    [generate] returns at once, with no further request, the last "text"
    found among the parts; an extracted text that is empty comes back as
    the no-text sentinel. *)
Theorem generate_returns_last_text E c prompt temp w r data parts tokens' :
  session c = true ->
  endpoint E (posts w) (request_url c) (make_payload c prompt temp)
  = PostResponse r ->
  status r = 200 ->
  json_body r = Ok data ->
  get_parts data = Ok parts ->
  forallb is_dict parts = true ->
  track_usage data (total_tokens w) = Ok tokens' ->
  exists w',
    generate E c prompt temp w
    = (Returns (let t := last (texts parts) (VStr []) in
                if truthy t then t else VStr NO_TEXT), w')
    /\ posts w' = S (posts w)
    /\ total_tokens w' = tokens'.
Proof.
  intros Hs He Hst Hj Hparts Hdicts Husage.
  set (text := let t := last (texts parts) (VStr []) in
               if truthy t then t else VStr NO_TEXT).
  assert (Hearly : early_return E (request_url c) (make_payload c prompt temp)
                     (posts w + 0) (total_tokens w) text tokens').
  { rewrite Nat.add_0_r. exists r, data. repeat split; auto.
    unfold on_200. rewrite Hparts. simpl.
    rewrite (text_of_parts_last parts (VStr []) Hdicts). simpl.
    rewrite Husage. reflexivity. }
  destruct (generate_spec E c prompt temp w) as (v & w' & Hrun & _ & Hcases).
  exists w'.
  destruct Hcases as [(_ & _ & Hopen & _)
                     |(_ & k & Hk & Hearly' & Hposts & Hbefore)].
  - exfalso. destruct (Hopen Hs) as [_ Hno].
    exact (Hno 0%nat text tokens' ltac:(lia) Hearly).
  - destruct k as [|k].
    + destruct (early_return_functional _ _ _ _ _ _ _ _ _ Hearly Hearly')
        as [Ht Hk'].
      subst v. split; [exact Hrun|]. split; [lia|congruence].
    + exfalso. exact (Hbefore 0%nat text tokens' ltac:(lia) Hearly).
Qed.

Lemma generate_returns_last_text_witness :
  exists w',
    generate (always (PostResponse (ok_response two_texts))) open_client
      (py "prompt") default_temperature initial_world
    = (Returns (VStr (py "second")), w')
    /\ posts w' = 1%nat
    /\ total_tokens w' = VInt 0.
Proof.
  exact (generate_returns_last_text
           (always (PostResponse (ok_response two_texts))) open_client
           (py "prompt") default_temperature initial_world
           (ok_response two_texts) two_texts
           [text_part (VStr (py "first")); text_part (VStr (py "second"))]
           (VInt 0)
           eq_refl eq_refl eq_refl eq_refl eq_refl eq_refl eq_refl).
Defined.

(** C5 (counterexample).  With two parts that carry a text, the first
    text fragment is "first" and the call returns "second". *)
Lemma generate_returns_not_first_text :
  hd VNone (texts [text_part (VStr (py "first"));
                   text_part (VStr (py "second"))]) = VStr (py "first")
  /\ fst (generate (always (PostResponse (ok_response two_texts)))
            open_client (py "prompt") default_temperature initial_world)
     = Returns (VStr (py "second"))
  /\ VStr (py "second") <> VStr (py "first").
Proof.
  split; [vm_compute; reflexivity|].
  split; [vm_compute; reflexivity|].
  vm_compute. discriminate.
Qed.

(** ** The scheduler *)

(** C10.  For a category whose hypothesis list is empty, [run_category]
    returns an empty list; the loop body is not entered (no permit is
    taken, no progress is computed, nothing is sent), the engine's results
    are as before, and [run_all] goes on with the next category. *)
Theorem run_category_empty E cfg eng client cat rest w :
  run_category E cfg eng client cat [] w
  = (Returns [],
     {| posts := posts w; clock_reads := clock_reads w;
        events := events w ++ [EvNewline];
        total_tokens := total_tokens w; results := results w;
        permits := permits w |})
  /\ run_categories E cfg eng client ((cat, []) :: rest) w
     = run_categories E cfg eng client rest
         {| posts := posts w; clock_reads := clock_reads w;
            events := events w
                      ++ [EvCategoryHeader (upper cat) 0; EvNewline;
                          EvSaveResults cat
                            (filter (category_eqb cat) (results w))];
            total_tokens := total_tokens w; results := results w;
            permits := permits w |}.
Proof.
  split; [reflexivity|].
  simpl. unfold mbind, emit, run_category, _save_results, get_world, ret.
  simpl. unfold mbind, emit. simpl.
  now rewrite <- !app_assoc.
Qed.

Lemma parse_failed_sentinel :
  exists v, parse FAILED_AFTER_RETRIES = Ok v.
Proof. eexists. vm_compute. reflexivity. Qed.

(** [run_simulation] never waits; it leaves results and semaphore alone;
    and it returns a record when the replies parse. *)
Lemma run_simulation_spec E eng client cat hyp n w :
  exists c w',
    run_simulation E eng client cat hyp n w = (c, w')
    /\ quiet_step w w'
    /\ c <> Blocks
    /\ (replies_parse E -> exists r, c = Returns r).
Proof.
  unfold run_simulation, mbind, read_clock. simpl.
  match goal with
  | |- context [generate E client ?p ?t ?w1] =>
      destruct (generate_spec E client p t w1)
        as (v & w2 & Hgen & Hstep & Hcases);
      rewrite Hgen
  end.
  destruct Hstep as (Hr & Hp & _ & evs & Hev & Hcl). simpl in Hr, Hp, Hev.
  assert (Hquiet : forall w3,
             results w3 = results w2 -> permits w3 = permits w2 ->
             events w3 = events w2 -> quiet_step w w3).
  { intros w3 H1 H2 H3. repeat split; try congruence.
    exists evs. split; [congruence|assumption]. }
  assert (Hparse : replies_parse E -> exists s x, v = VStr s /\ parse s = Ok x).
  { intros HE.
    destruct Hcases as [(Hv & _)|(_ & k & _ & Hearly & _)].
    - destruct parse_failed_sentinel as [x Hx]. eauto.
    - exact (HE _ _ _ _ _ _ Hearly). }
  destruct v as [| | | |s| |];
    try (eexists; eexists; split; [reflexivity|];
         split; [apply Hquiet; reflexivity|];
         split; [discriminate|];
         intros HE; destruct (Hparse HE) as (s & x & Hs & _); discriminate).
  simpl. unfold lift, parse in *.
  destruct (parse_data s) as [data|e] eqn:Hdata; simpl.
  2: { eexists; eexists; split; [reflexivity|].
       split; [apply Hquiet; reflexivity|]. split; [discriminate|].
       intros HE. destruct (Hparse HE) as (s' & x & Hs & Hx).
       inversion Hs; subst s'. rewrite Hdata in Hx. discriminate. }
  destruct (extract_fields data) as [fields|e] eqn:Hfields; simpl.
  2: { eexists; eexists; split; [reflexivity|].
       split; [apply Hquiet; reflexivity|]. split; [discriminate|].
       intros HE. destruct (Hparse HE) as (s' & x & Hs & Hx).
       inversion Hs; subst s'. rewrite Hdata in Hx. simpl in Hx.
       rewrite Hfields in Hx. discriminate. }
  destruct (method_get data (py "summary") (VStr [])) as [sm|e] eqn:Hsm; simpl.
  2: { eexists; eexists; split; [reflexivity|].
       split; [apply Hquiet; reflexivity|]. split; [discriminate|].
       intros HE. destruct (Hparse HE) as (s' & x & Hs & Hx).
       inversion Hs; subst s'. rewrite Hdata in Hx. simpl in Hx.
       rewrite Hfields in Hx. simpl in Hx. rewrite Hsm in Hx. discriminate. }
  eexists; eexists; split; [reflexivity|].
  split; [apply Hquiet; reflexivity|]. split; [discriminate|].
  intros _. eexists. reflexivity.
Qed.

Lemma run_item_spec E cfg eng client cat total i hyp w :
  total <> 0 ->
  exists c w' sim_evs,
    run_item E cfg eng client cat total i hyp w = (c, w')
    /\ forallb is_client_event sim_evs = true
    /\ events w' = events w ++ item_events c cfg cat total i sim_evs
    /\ permits w' = permits w
    /\ match c with
       | Returns r =>
           0 < permits w
           /\ results w' = results w ++ [r]
           /\ category r = cat
           /\ hypothesis r = hyp
           /\ simulation_id r = make_sim_id (self_domain eng) cat (i + 1)
       | Raises _ => 0 < permits w /\ results w' = results w
       | Blocks => permits w <= 0 /\ results w' = results w
       end
    /\ (0 < permits w -> replies_parse E -> exists r, c = Returns r).
Proof.
  intros Htotal.
  unfold run_item, async_with_semaphore, acquire, mbind.
  destruct (Z.ltb_spec 0 (permits w)) as [Hpos|Hnone].
  2: { exists Blocks, w, []. simpl. rewrite app_nil_r.
       repeat split; auto. intros; lia. }
  unfold set_permits, emit. simpl.
  match goal with
  | |- context [run_simulation E eng client cat hyp (i + 1) ?w1] =>
      destruct (run_simulation_spec E eng client cat hyp (i + 1) w1)
        as (c & w2 & Hrun & Hquiet & Hnb & Htot);
      rewrite Hrun
  end.
  destruct Hquiet as (Hr & Hp & evs & Hev & Hcl). simpl in Hr, Hp, Hev.
  destruct c as [r|e|]; [| |contradiction].
  - apply run_simulation_returns in Hrun as (_ & Hid & _ & Hcat & Hhyp).
    unfold append_global, release, get_world, set_results, set_permits,
      emit, sleep, lift, true_div, ret, mbind. simpl.
    destruct (Z.eqb_spec total 0) as [|_]; [contradiction|]. simpl.
    exists (Returns r). eexists. exists evs.
    split; [reflexivity|]. simpl.
    split; [assumption|]. split.
    { rewrite Hev. repeat rewrite <- app_assoc. reflexivity. }
    split; [lia|]. split.
    { repeat split; auto. now rewrite Hr. }
    intros _ _. eexists. reflexivity.
  - unfold release, get_world, set_permits, emit, raise, mbind. simpl.
    exists (Raises e). eexists. exists evs.
    split; [reflexivity|]. simpl.
    split; [assumption|]. split.
    { rewrite Hev. repeat rewrite <- app_assoc. reflexivity. }
    split; [lia|]. split; [auto|].
    intros _ HE. destruct (Htot HE) as [r Hr']. discriminate.
Qed.

Lemma count_app p l1 l2 : count p (l1 ++ l2) = (count p l1 + count p l2)%nat.
Proof. unfold count. now rewrite filter_app, length_app. Qed.

Lemma count_client_events p evs :
  (forall e, is_client_event e = true -> p e = false) ->
  forallb is_client_event evs = true ->
  count p evs = 0%nat.
Proof.
  intros Hp. induction evs as [|e r IH]; simpl; intros H; [reflexivity|].
  apply andb_prop in H as [He Hr]. unfold count in *. simpl.
  rewrite (Hp e He). now apply IH.
Qed.

Lemma client_event_not_acquire e : is_client_event e = true -> is_acquire e = false.
Proof. destruct e; simpl; congruence. Qed.

Lemma client_event_not_release e : is_client_event e = true -> is_release e = false.
Proof. destruct e; simpl; congruence. Qed.

(** C6 (amended).  For each hypothesis that the scheduler processes, the
    events of the item occur in this order: acquire one concurrency unit
    (waiting when none is free), run the simulation, append the result to
    the category-local and then to the global collection, emit the
    progress indicator, pause for the pacing delay, release the
    concurrency unit.  The unit is released exactly once per acquisition,
    also when the simulation raises, and it is released after the pacing
    delay, not before it. *)
Theorem run_item_event_order E cfg eng client cat hyps i hyp w :
  In hyp hyps ->
  exists c w' sim_evs,
    run_item E cfg eng client cat (len hyps) i hyp w = (c, w')
    /\ forallb is_client_event sim_evs = true
    /\ events w'
       = events w
         ++ match c with
            | Returns r =>
                [EvAcquire] ++ sim_evs
                ++ [EvAppendLocal (simulation_id r);
                    EvAppendGlobal (simulation_id r);
                    EvProgress cat (i + 1) (len hyps)
                      (Qred (Qred (inject_Z (i + 1) / inject_Z (len hyps))
                             * 100))
                      (outcome_icon (outcome r));
                    EvSleep (VFloat (DELAY_BETWEEN_CALLS cfg));
                    EvRelease]
            | Raises _ => [EvAcquire] ++ sim_evs ++ [EvRelease]
            | Blocks => []
            end
    /\ count is_acquire (skipn (List.length (events w)) (events w'))
       = count is_release (skipn (List.length (events w)) (events w'))
    /\ (count is_release (skipn (List.length (events w)) (events w')) <= 1)%nat
    /\ permits w' = permits w.
Proof.
  intros Hin.
  assert (Htotal : len hyps <> 0).
  { destruct hyps; [contradiction|]. rewrite len_cons.
    pose proof (len_nonneg hyps). lia. }
  destruct (run_item_spec E cfg eng client cat (len hyps) i hyp w Htotal)
    as (c & w' & sim_evs & Hrun & Hcl & Hev & Hp & _).
  exists c, w', sim_evs.
  split; [assumption|]. split; [assumption|].
  split; [exact Hev|].
  rewrite Hev, skipn_length_app.
  pose proof (count_client_events is_acquire sim_evs
                client_event_not_acquire Hcl) as Ha.
  pose proof (count_client_events is_release sim_evs
                client_event_not_release Hcl) as Hr.
  destruct c as [r|e|]; unfold item_events; rewrite ?count_app, ?Ha, ?Hr;
    simpl; auto.
Qed.

Lemma run_item_event_order_witness :
  exists c w' sim_evs,
    run_item (answering (VStr (pyq "{'outcome': 'positive'}")))
      default_settings business_engine open_client (py "viability")
      (len [py "Subscription pricing model"; py "Freemium with ads"]) 0
      (py "Subscription pricing model") ready_world = (c, w')
    /\ forallb is_client_event sim_evs = true
    /\ events w'
       = events ready_world
         ++ match c with
            | Returns r =>
                [EvAcquire] ++ sim_evs
                ++ [EvAppendLocal (simulation_id r);
                    EvAppendGlobal (simulation_id r);
                    EvProgress (py "viability") (0 + 1)
                      (len [py "Subscription pricing model";
                            py "Freemium with ads"])
                      (Qred (Qred (inject_Z (0 + 1)
                                   / inject_Z
                                       (len [py "Subscription pricing model";
                                             py "Freemium with ads"]))
                             * 100))
                      (outcome_icon (outcome r));
                    EvSleep (VFloat (DELAY_BETWEEN_CALLS default_settings));
                    EvRelease]
            | Raises _ => [EvAcquire] ++ sim_evs ++ [EvRelease]
            | Blocks => []
            end
    /\ count is_acquire
         (skipn (List.length (events ready_world)) (events w'))
       = count is_release
           (skipn (List.length (events ready_world)) (events w'))
    /\ (count is_release
          (skipn (List.length (events ready_world)) (events w')) <= 1)%nat
    /\ permits w' = permits ready_world.
Proof.
  apply (run_item_event_order
           (answering (VStr (pyq "{'outcome': 'positive'}")))
           default_settings business_engine open_client (py "viability")
           [py "Subscription pricing model"; py "Freemium with ads"] 0
           (py "Subscription pricing model") ready_world).
  simpl. left. reflexivity.
Defined.

(** C6 (counterexample).  In a run over one hypothesis the progress
    indicator is event 5, the pacing delay event 6 and the release of the
    concurrency unit event 7: the unit is held through the progress
    output and the pacing delay, and released after them. *)
Lemma release_follows_pacing_delay :
  let w := snd (run_all (answering (VStr (pyq "{'outcome': 'positive'}")))
                  default_settings business_engine
                  [(py "viability", [py "Subscription pricing model"])]
                  initial_world) in
  first_index is_acquire (events w) = Some 1%nat
  /\ first_index is_progress (events w) = Some 5%nat
  /\ first_index is_pacing (events w) = Some 6%nat
  /\ first_index is_release (events w) = Some 7%nat
  /\ count is_release (events w) = 1%nat
  /\ count is_pacing (events w) = 1%nat.
Proof. vm_compute. repeat split; reflexivity. Qed.

(** With a concurrency cap of zero the first acquisition never completes. *)
Example run_all_blocks_without_permits :
  fst (run_all (answering (VStr (pyq "{'outcome': 'positive'}")))
         {| GEMINI_MODEL := py "gemini-2.0-flash";
            MAX_CONCURRENT := 0;
            DELAY_BETWEEN_CALLS := FFin 1 |}
         business_engine (hypotheses business_config) initial_world)
  = Blocks.
Proof. vm_compute. reflexivity. Qed.

(** When the simulation raises, the concurrency unit still goes back, and
    nothing is appended. *)
Example run_item_releases_on_exception :
  let run := run_item (answering (VStr (pyq "{'confidence': 'high'}")))
               default_settings business_engine open_client (py "viability")
               2 0 (py "Subscription pricing model") ready_world in
  fst run = Raises ValueError
  /\ filter (fun e => is_acquire e || is_release e) (events (snd run))
     = [EvAcquire; EvRelease]
  /\ permits (snd run) = 5
  /\ results (snd run) = [].
Proof. vm_compute. repeat split; reflexivity. Qed.

(** ** One result per hypothesis *)

Lemma category_keys_length dom cat i hyps :
  List.length (category_keys dom cat i hyps) = List.length hyps.
Proof.
  unfold category_keys. rewrite length_map.
  revert i. induction hyps; intros i; simpl; auto.
Qed.

Lemma expected_keys_length dom cats :
  List.length (expected_keys dom cats) = hypothesis_count cats.
Proof.
  unfold expected_keys, hypothesis_count.
  induction cats as [|[cat hyps] rest IH]; simpl; [reflexivity|].
  now rewrite length_app, category_keys_length, IH.
Qed.

Lemma run_items_spec E cfg eng client cat total hyps : forall i acc w,
  total <> 0 ->
  exists c w',
    run_items E cfg eng client cat total i hyps acc w = (c, w')
    /\ permits w' = permits w
    /\ match c with
       | Returns rs =>
           exists new,
             rs = acc ++ new
             /\ results w' = results w ++ new
             /\ map key new = category_keys (self_domain eng) cat i hyps
       | _ => True
       end
    /\ (0 < permits w -> replies_parse E -> exists rs, c = Returns rs).
Proof.
  induction hyps as [|hyp rest IH]; intros i acc w Htotal.
  - exists (Returns acc), w. simpl. repeat split.
    + exists []. now rewrite !app_nil_r.
    + intros _ _. eexists. reflexivity.
  - simpl. unfold mbind.
    destruct (run_item_spec E cfg eng client cat total i hyp w Htotal)
      as (c & w1 & sim_evs & Hrun & _ & _ & Hp & Hc & Htot).
    rewrite Hrun. destruct c as [r|e|].
    + destruct Hc as (Hpos & Hres & Hcat & Hhyp & Hid).
      destruct (IH (i + 1) (acc ++ [r]) w1 Htotal)
        as (c2 & w2 & Hrun2 & Hp2 & Hc2 & Htot2).
      exists c2, w2. split; [assumption|]. split; [congruence|]. split.
      * destruct c2 as [rs| |]; auto.
        destruct Hc2 as (new & Hrs & Hres2 & Hkeys).
        exists (r :: new). rewrite Hrs, Hres2, Hres, <- !app_assoc.
        repeat split. unfold category_keys. simpl.
        unfold category_keys in Hkeys. rewrite Hkeys.
        unfold key. now rewrite Hcat, Hhyp, Hid.
      * intros Hpos' HE. apply Htot2; [lia|assumption].
    + exists (Raises e), w1. repeat split; auto.
      intros Hpos HE. destruct (Htot Hpos HE) as [r Hr]. discriminate.
    + exists Blocks, w1. repeat split; auto.
      intros Hpos HE. destruct (Htot Hpos HE) as [r Hr]. discriminate.
Qed.

Lemma run_category_spec E cfg eng client cat hyps w :
  exists c w',
    run_category E cfg eng client cat hyps w = (c, w')
    /\ permits w' = permits w
    /\ match c with
       | Returns rs =>
           results w' = results w ++ rs
           /\ map key rs = category_keys (self_domain eng) cat 0 hyps
       | _ => True
       end
    /\ (0 < permits w -> replies_parse E -> exists rs, c = Returns rs).
Proof.
  destruct hyps as [|hyp rest].
  - eexists. eexists. split; [reflexivity|]. simpl.
    repeat split; auto.
    + now rewrite app_nil_r.
    + intros _ _. eexists. reflexivity.
  - assert (Htotal : len (hyp :: rest) <> 0).
    { rewrite len_cons. pose proof (len_nonneg rest). lia. }
    unfold run_category, mbind.
    destruct (run_items_spec E cfg eng client cat (len (hyp :: rest))
                (hyp :: rest) 0 [] w Htotal)
      as (c & w1 & Hrun & Hp & Hc & Htot).
    rewrite Hrun. destruct c as [rs|e|].
    + destruct Hc as (new & Hrs & Hres & Hkeys). simpl in Hrs. subst new.
      eexists. eexists. split; [reflexivity|]. simpl.
      split; [assumption|]. split; [split; assumption|].
      intros _ _. eexists. reflexivity.
    + exists (Raises e), w1. repeat split; auto.
    + exists Blocks, w1. repeat split; auto.
Qed.

Lemma run_categories_spec E cfg eng client cats : forall w,
  exists c w',
    run_categories E cfg eng client cats w = (c, w')
    /\ permits w' = permits w
    /\ match c with
       | Returns _ =>
           exists new,
             results w' = results w ++ new
             /\ map key new = expected_keys (self_domain eng) cats
       | _ => True
       end
    /\ (0 < permits w -> replies_parse E -> c = Returns tt).
Proof.
  induction cats as [|[cat hyps] rest IH]; intros w.
  - exists (Returns tt), w. simpl. repeat split; auto.
    exists []. now rewrite app_nil_r.
  - simpl. unfold mbind at 1. unfold emit at 1.
    unfold mbind at 1.
    match goal with
    | |- context [run_category E cfg eng client cat hyps ?w0] =>
        destruct (run_category_spec E cfg eng client cat hyps w0)
          as (c & w1 & Hrun & Hp & Hc & Htot);
        rewrite Hrun
    end.
    simpl in Hp, Hc, Htot.
    destruct c as [rs|e|].
    + destruct Hc as (Hres & Hkeys).
      unfold mbind, _save_results, get_world, emit. simpl.
      match goal with
      | |- context [run_categories E cfg eng client rest ?w2] =>
          destruct (IH w2) as (c2 & w3 & Hrun2 & Hp2 & Hc2 & Htot2);
          rewrite Hrun2
      end.
      simpl in Hp2, Hc2, Htot2.
      exists c2, w3. split; [reflexivity|]. split; [congruence|]. split.
      * destruct c2 as [u| |]; auto.
        destruct Hc2 as (new & Hres2 & Hkeys2).
        exists (rs ++ new). rewrite Hres2, Hres, <- app_assoc.
        split; [reflexivity|].
        unfold expected_keys. simpl. rewrite map_app, Hkeys.
        unfold expected_keys in Hkeys2. now rewrite Hkeys2.
      * intros Hpos HE. apply Htot2; [lia|assumption].
    + exists (Raises e), w1. repeat split; auto.
      intros Hpos HE. destruct (Htot Hpos HE) as [r Hr]. discriminate.
    + exists Blocks, w1. repeat split; auto.
      intros Hpos HE. destruct (Htot Hpos HE) as [r Hr]. discriminate.
Qed.

(** [run_all] returns the engine's accumulated results: those it held
    before, then one per hypothesis of this call. *)
Lemma run_all_spec E cfg eng cats w :
  exists c w',
    run_all E cfg eng cats w = (c, w')
    /\ match c with
       | Returns rs =>
           exists new,
             rs = results w ++ new
             /\ results w' = rs
             /\ map key new = expected_keys (self_domain eng) cats
       | _ => True
       end
    /\ (1 <= MAX_CONCURRENT cfg -> replies_parse E ->
        exists rs, c = Returns rs).
Proof.
  unfold run_all, Semaphore.
  destruct (Z.ltb_spec (MAX_CONCURRENT cfg) 0) as [Hneg|Hnonneg].
  { exists (Raises ValueError), w. repeat split; auto. intros; lia. }
  unfold mbind at 1. unfold set_permits at 1.
  unfold mbind at 1. unfold set_total_tokens at 1.
  unfold mbind at 1.
  match goal with
  | |- context [run_categories E cfg eng ?cl cats ?w0] =>
      destruct (run_categories_spec E cfg eng cl cats w0)
        as (c & w1 & Hrun & Hp & Hc & Htot);
      rewrite Hrun
  end.
  simpl in Hp, Hc, Htot.
  destruct c as [u|e|].
  - destruct Hc as (new & Hres & Hkeys).
    unfold mbind, get_world, emit, _generate_summary, ret. simpl.
    eexists. eexists. split; [reflexivity|]. simpl. split.
    + exists new. auto.
    + intros _ _. eexists. reflexivity.
  - exists (Raises e), w1. repeat split; auto.
    intros Hcap HE. specialize (Htot ltac:(lia) HE). discriminate.
  - exists Blocks, w1. repeat split; auto.
    intros Hcap HE. specialize (Htot ltac:(lia) HE). discriminate.
Qed.


Lemma answering_replies_parse :
  replies_parse (answering (VStr (pyq "{'outcome': 'positive'}"))).
Proof.
  intros url body n tokens text tokens' (r & data & Hr & _ & Hj & Ho).
  simpl in Hr. inversion Hr; subst r. simpl in Hj. inversion Hj; subst data.
  vm_compute in Ho. inversion Ho; subst.
  eexists. eexists. split; [reflexivity|]. vm_compute. reflexivity.
Qed.



(** ** The hypotheses that [main] runs *)

Lemma slice_nil {A} (a b : option Z) : slice (@nil A) a b = [].
Proof. unfold slice. now rewrite skipn_nil, firstn_nil. Qed.

Lemma truthy_nonempty (c : str) : c <> [] -> truthy (VStr c) = true.
Proof.
  destruct c as [|x r]; [contradiction|]. intros _.
  unfold truthy. rewrite len_cons. pose proof (len_nonneg r).
  destruct (Z.eqb_spec (len r + 1) 0); [lia|reflexivity].
Qed.

Lemma select_missing_category config args c :
  hypotheses config <> [] ->
  arg_category args = Some c ->
  c <> [] ->
  dict_lookup (hypotheses config) c = None ->
  select_hypotheses config args = RunAll [(c, [])].
Proof.
  intros Hne Hcat Hc Hlook. unfold select_hypotheses.
  destruct (hypotheses config) as [|kv rest] eqn:Hh; [contradiction|].
  rewrite Hcat, (truthy_nonempty c Hc). unfold dict_get. rewrite Hlook.
  destruct (arg_count args) as [n|]; [|reflexivity].
  destruct (n =? 0); [reflexivity|]. simpl. now rewrite slice_nil.
Qed.

(** C9 (amended).  When the configuration holds no hypotheses at all,
    [main] reports it and exits with status 1 before anything is
    scheduled.  When it holds hypotheses but none for the category that
    was requested, nothing is reported: [main] takes an empty list for
    that category, runs zero simulations and completes. *)
Theorem main_missing_hypotheses E cfg key config args w :
  (hypotheses config = [] ->
   main E cfg key config args w
   = (Returns (Exited 1),
      {| posts := posts w; clock_reads := clock_reads w;
         events := events w ++ [EvPrintNoHypotheses (arg_domain args)];
         total_tokens := total_tokens w; results := [];
         permits := permits w |}))
  /\ (forall c,
         hypotheses config <> [] ->
         arg_category args = Some c ->
         c <> [] ->
         dict_lookup (hypotheses config) c = None ->
         0 <= MAX_CONCURRENT cfg ->
         exists w',
           main E cfg key config args w = (Returns (Completed []), w')
           /\ posts w' = posts w
           /\ events w'
              = events w
                ++ [EvCategoryHeader (upper c) 0; EvNewline;
                    EvSaveResults c []; EvPrintTokens (VInt 0);
                    EvSummary []]).
Proof.
  split.
  - intros Hnone. unfold main, select_hypotheses. simpl. rewrite Hnone.
    reflexivity.
  - intros c Hne Hcat Hc Hlook Hcap. unfold main. simpl.
    rewrite (select_missing_category config args c Hne Hcat Hc Hlook).
    unfold mbind at 1. unfold set_results at 1.
    unfold mbind at 1. unfold run_all, Semaphore.
    destruct (Z.ltb_spec (MAX_CONCURRENT cfg) 0) as [Hneg|_]; [lia|].
    eexists. split; [reflexivity|]. simpl.
    split; [reflexivity|]. now rewrite <- !app_assoc.
Qed.

(** C9 (counterexample).  The template has hypotheses for "viability"
    only and the category requested is "pricing": [main] exits with no
    error, having sent nothing and produced nothing. *)
Lemma main_masks_missing_category :
  dict_lookup (hypotheses business_config) (py "pricing") = None
  /\ select_hypotheses business_config pricing_arguments
     = RunAll [(py "pricing", [])]
  /\ fst (main (answering (VStr (pyq "{'outcome': 'positive'}")))
            default_settings (py "key") business_config pricing_arguments
            initial_world)
     = Returns (Completed [])
  /\ posts (snd (main (answering (VStr (pyq "{'outcome': 'positive'}")))
                   default_settings (py "key") business_config
                   pricing_arguments initial_world))
     = 0%nat.
Proof. vm_compute. repeat split; reflexivity. Qed.

(** * Further properties *)

(** ** The parse step, completed *)

Lemma float_of_str_raises s e : float_of_str s = Raise e -> e = ValueError.
Proof.
  unfold float_of_str.
  destruct (drop_underscores false (strip s)) as [t|]; [|congruence].
  destruct (split_sign t) as [neg body].
  destruct (str_eqb (lower body) (py "inf") || str_eqb (lower body) (py "infinity"));
    [discriminate|].
  destruct (str_eqb (lower body) (py "nan")); [discriminate|].
  destruct (span_digits body) as [ip r1].
  destruct (match r1 with
            | [] => ([], [])
            | c :: r => if (c =? 46)%N then span_digits r else ([], r1)
            end) as [fp r2].
  destruct (ip ++ fp); [congruence|].
  destruct (scan_exponent r2); [discriminate|congruence].
Qed.

Lemma int_of_str_raises s e : int_of_str s = Raise e -> e = ValueError.
Proof.
  unfold int_of_str. destruct (split_sign (strip s)) as [neg body].
  destruct (drop_underscores false body) as [d|]; [|congruence].
  destruct d; [congruence|].
  destruct (forallb is_digit (c :: d)); [discriminate|congruence].
Qed.

Lemma py_float_raises v e : py_float v = Raise e -> coercion_error e.
Proof.
  unfold coercion_error.
  destruct v as [|b|z|f|s|l|d]; simpl; try (intros H; inversion H; auto; fail).
  - unfold float_of_int. destruct (overflow_bound <=? Z.abs z);
      intros H; inversion H; auto.
  - intros H. apply float_of_str_raises in H. auto.
Qed.

Lemma py_int_raises v e : py_int v = Raise e -> coercion_error e.
Proof.
  unfold coercion_error.
  destruct v as [|b|z|f|s|l|d]; simpl; try (intros H; inversion H; auto; fail).
  - destruct f; simpl; intros H; inversion H; auto.
  - intros H. apply int_of_str_raises in H. auto.
Qed.




(** ** Simulations that degrade *)

(** The record that [run_simulation] builds from a reply that parses. *)
Lemma run_simulation_with_reply E eng client cat hyp n w s w2 v sm :
  generate E client (make_prompt eng cat hyp) default_temperature
    (after_clock w) = (Returns (VStr s), w2) ->
  parse s = Ok (v, sm) ->
  run_simulation E eng client cat hyp n w
  = (Returns
       {| simulation_id := make_sim_id (self_domain eng) cat n;
          domain := self_domain eng;
          category := cat;
          hypothesis := hyp;
          scenario := slice hyp None (Some 200);
          outcome := v_outcome v;
          confidence := v_confidence v;
          insights := v_insights v;
          recommendations := v_recommendations v;
          risks := v_risks v;
          dependencies := v_dependencies v;
          priority_score := v_priority_score v;
          raw_response := s;
          timestamp := now E (S (clock_reads w2));
          duration_ms :=
            Z.quot (now E (clock_reads w2) - now E (clock_reads w)) 1000;
          metadata := [(py "summary", sm)] |},
     after_clock (after_clock w2)).
Proof.
  intros Hgen Hparse. unfold parse in Hparse.
  destruct (parse_data s) as [data|] eqn:Hdata; [|discriminate].
  simpl in Hparse.
  destruct (extract_fields data) as [fields|] eqn:Hfields; [|discriminate].
  simpl in Hparse.
  destruct (method_get data (py "summary") (VStr [])) as [summary|] eqn:Hsm;
    [|discriminate].
  simpl in Hparse. inversion Hparse; subst fields summary.
  unfold run_simulation, mbind, read_clock.
  change {| posts := posts w; clock_reads := S (clock_reads w);
            events := events w; total_tokens := total_tokens w;
            results := results w; permits := permits w |}
    with (after_clock w).
  rewrite Hgen. unfold ret, lift. rewrite Hdata. unfold ret.
  rewrite Hfields. unfold ret. rewrite Hsm. reflexivity.
Qed.

(** X3.  When none of the three requests of a simulation is answered by
    a status 200 whose body can be read, [run_simulation] still returns a
    record: its raw response is the failure sentinel and every parsed
    field has its default, so the hypothesis is recorded as neutral. *)
Theorem run_simulation_after_failed_retries E eng client cat hyp n w :
  (forall k text tokens',
      (k < 3)%nat ->
      ~ early_return E (request_url client)
          (make_payload client (make_prompt eng cat hyp) default_temperature)
          (posts w + k) (total_tokens w) text tokens') ->
  exists r w',
    run_simulation E eng client cat hyp n w = (Returns r, w')
    /\ raw_response r = FAILED_AFTER_RETRIES
    /\ verdict_of r = default_verdict
    /\ metadata r = [(py "summary", VStr [])]
    /\ hypothesis r = hyp
    /\ total_tokens w' = total_tokens w.
Proof.
  intros Hno.
  destruct (generate_spec E client (make_prompt eng cat hyp)
              default_temperature (after_clock w))
    as (v & w2 & Hgen & _ & Hcases).
  destruct Hcases as [(Hv & Htok & _)|(_ & k & Hk & Hearly & _)].
  - subst v.
    assert (Hparse : parse FAILED_AFTER_RETRIES = Ok (default_verdict, VStr []))
      by (vm_compute; reflexivity).
    eexists. eexists. split.
    + exact (run_simulation_with_reply E eng client cat hyp n w _ w2 _ _
               Hgen Hparse).
    + simpl. repeat split. exact Htok.
  - exfalso. exact (Hno k v (total_tokens w2) Hk Hearly).
Qed.

Lemma run_simulation_after_failed_retries_witness :
  exists r w',
    run_simulation (always (PostResponse (status_response 500)))
      business_engine open_client (py "viability")
      (py "Subscription pricing model") 1 initial_world = (Returns r, w')
    /\ raw_response r = FAILED_AFTER_RETRIES
    /\ verdict_of r = default_verdict
    /\ metadata r = [(py "summary", VStr [])]
    /\ hypothesis r = py "Subscription pricing model"
    /\ total_tokens w' = total_tokens initial_world.
Proof.
  apply (run_simulation_after_failed_retries
           (always (PostResponse (status_response 500)))
           business_engine open_client (py "viability")
           (py "Subscription pricing model") 1 initial_world).
  intros k text tokens' _ (r & d & Hr & Hst & _).
  simpl in Hr. inversion Hr; subst r. discriminate Hst.
Defined.

(** ** What a record carries *)

Lemma firstn_min_length {A} (l : list A) k :
  firstn (Nat.min (List.length l) k) l = firstn k l.
Proof.
  destruct (Nat.le_ge_cases k (List.length l)) as [H|H].
  - now rewrite Nat.min_r.
  - rewrite Nat.min_l by assumption.
    now rewrite firstn_all, firstn_all2.
Qed.

(** [l[:n]]: the first [n] items, or all but the last [-n] when [n] is
    negative. *)
Lemma slice_stop {A} (l : list A) n :
  slice l None (Some n)
  = firstn (Z.to_nat (if n <? 0 then n + len l else n)) l.
Proof.
  unfold slice, clamp_index. simpl skipn. rewrite Z.sub_0_r.
  pose proof (len_nonneg l) as Hlen.
  destruct (Z.ltb_spec n 0) as [Hneg|Hpos].
  - rewrite Z.min_r by lia.
    destruct (Z.le_ge_cases 0 (n + len l)) as [H|H].
    + now rewrite Z.max_r.
    + rewrite Z.max_l by lia.
      replace (Z.to_nat (n + len l)) with 0%nat by lia. reflexivity.
  - rewrite Z.max_r by lia.
    rewrite <- (firstn_min_length l (Z.to_nat n)). f_equal.
    unfold len in *. lia.
Qed.

(** A record comes from a reply that is a string and parses, and from
    nothing else. *)
Lemma run_simulation_record E eng client cat hyp n w r w' :
  run_simulation E eng client cat hyp n w = (Returns r, w') ->
  exists s w2 v sm,
    generate E client (make_prompt eng cat hyp) default_temperature
      (after_clock w) = (Returns (VStr s), w2)
    /\ parse s = Ok (v, sm)
    /\ clock_reads w2 = S (clock_reads w)
    /\ run_simulation E eng client cat hyp n w
       = (Returns
            {| simulation_id := make_sim_id (self_domain eng) cat n;
               domain := self_domain eng;
               category := cat;
               hypothesis := hyp;
               scenario := slice hyp None (Some 200);
               outcome := v_outcome v;
               confidence := v_confidence v;
               insights := v_insights v;
               recommendations := v_recommendations v;
               risks := v_risks v;
               dependencies := v_dependencies v;
               priority_score := v_priority_score v;
               raw_response := s;
               timestamp := now E (S (clock_reads w2));
               duration_ms :=
                 Z.quot (now E (clock_reads w2) - now E (clock_reads w)) 1000;
               metadata := [(py "summary", sm)] |},
          after_clock (after_clock w2)).
Proof.
  intros Hrun.
  destruct (generate_spec E client (make_prompt eng cat hyp)
              default_temperature (after_clock w))
    as (v & w2 & Hgen & Hstep & _).
  destruct Hstep as (_ & _ & Hclock & _). simpl in Hclock.
  pose proof Hrun as Hrun'.
  apply run_simulation_returns in Hrun' as (Hparse & _).
  assert (Hreply : exists s, v = VStr s /\ raw_response r = s).
  { unfold run_simulation, mbind, read_clock in Hrun.
    change {| posts := posts w; clock_reads := S (clock_reads w);
              events := events w; total_tokens := total_tokens w;
              results := results w; permits := permits w |}
      with (after_clock w) in Hrun.
    rewrite Hgen in Hrun.
    destruct v as [| | | |s| |]; try discriminate.
    exists s. split; [reflexivity|].
    unfold ret, lift in Hrun.
    destruct (parse_data s) as [data|]; [|discriminate].
    unfold ret in Hrun.
    destruct (extract_fields data) as [fields|]; [|discriminate].
    unfold ret in Hrun.
    destruct (method_get data (py "summary") (VStr [])) as [summary|];
      [|discriminate].
    inversion Hrun. reflexivity. }
  destruct Hreply as (s & -> & Hraw). rewrite Hraw in Hparse.
  eexists s, w2, _, _.
  split; [exact Hgen|]. split; [exact Hparse|]. split; [exact Hclock|].
  exact (run_simulation_with_reply E eng client cat hyp n w s w2 _ _
           Hgen Hparse).
Qed.



(** ** Identifiers *)

Lemma utf8_decode_ascii bs : forall fuel,
  (List.length bs <= fuel)%nat ->
  forallb (fun b => (b <? 128)%N) bs = true ->
  utf8_decode fuel bs = bs.
Proof.
  induction bs as [|b r IH]; intros fuel Hlen Hall.
  - destruct fuel; reflexivity.
  - destruct fuel as [|fuel]; [simpl in Hlen; lia|].
    simpl in Hall. apply andb_prop in Hall as [Hb Hr].
    simpl. rewrite Hb. f_equal. apply IH; [simpl in Hlen; lia|assumption].
Qed.

Lemma numeral_chars_ascii d :
  forallb (fun b => (b <? 128)%N) (numeral_chars d) = true.
Proof.
  unfold numeral_chars. induction d; simpl; auto.
Qed.

Lemma py_numeral d : py (NilEmpty.string_of_uint d) = numeral_chars d.
Proof.
  unfold py. cbv zeta. apply utf8_decode_ascii; [apply Nat.le_refl|].
  apply numeral_chars_ascii.
Qed.

Lemma numeral_value_acc d : forall acc,
  fold_left digit_step (numeral_chars d) (Z.pos acc)
  = Z.pos (Pos.of_uint_acc d acc).
Proof.
  unfold numeral_chars.
  induction d; intros acc;
    cbn [NilEmpty.string_of_uint list_ascii_of_string map fold_left
         Pos.of_uint_acc];
    try reflexivity;
    rewrite <- IHd; f_equal; eval_digit; lia.
Qed.

Lemma numeral_value d :
  fold_left digit_step (numeral_chars d) 0 = Z.of_N (Pos.of_uint d).
Proof.
  unfold numeral_chars.
  induction d;
    cbn [NilEmpty.string_of_uint list_ascii_of_string map fold_left
         Pos.of_uint Z.of_N];
    try reflexivity;
    [exact IHd|..];
    rewrite <- (numeral_value_acc d); unfold numeral_chars; f_equal;
    eval_digit; reflexivity.
Qed.

(** Reading the digits of [decimal n] gives [n] back. *)
Lemma digits_value_decimal n : 0 <= n -> digits_value (decimal n) = n.
Proof.
  intros Hn. unfold decimal, digits_value. rewrite py_numeral.
  change (fun a c => a * 10 + digit_val c) with digit_step.
  rewrite numeral_value.
  change (Pos.of_uint (N.to_uint (Z.to_N n)))
    with (N.of_uint (N.to_uint (Z.to_N n))).
  rewrite DecimalN.Unsigned.of_to. lia.
Qed.

Lemma digits_value_zeros k s :
  digits_value (repeat 48%N k ++ s) = digits_value s.
Proof.
  unfold digits_value. rewrite fold_left_app. f_equal.
  induction k; simpl; auto.
Qed.

(** The format [04d] loses nothing: the number reads back from it. *)
Lemma digits_value_format_04d n : 0 <= n -> digits_value (format_04d n) = n.
Proof.
  intros Hn. unfold format_04d.
  destruct (Z.ltb_spec n 0); [lia|]. simpl app.
  rewrite digits_value_zeros, Z.abs_eq by assumption.
  now apply digits_value_decimal.
Qed.

Lemma make_sim_id_injective dom cat n m :
  0 <= n -> 0 <= m ->
  make_sim_id dom cat n = make_sim_id dom cat m -> n = m.
Proof.
  intros Hn Hm H. unfold make_sim_id in H.
  repeat apply app_inv_head in H.
  rewrite <- (digits_value_format_04d n Hn), <- (digits_value_format_04d m Hm).
  now rewrite H.
Qed.

Lemma numbered_numbers i hyps n h :
  In (n, h) (numbered i hyps) -> i < n.
Proof.
  revert i. induction hyps as [|x r IH]; intros i; simpl; [contradiction|].
  intros [H|H].
  - inversion H. lia.
  - apply IH in H. lia.
Qed.

Lemma category_ids_distinct dom cat hyps : forall i,
  0 <= i ->
  NoDup (map (fun k => snd k) (category_keys dom cat i hyps)).
Proof.
  unfold category_keys.
  induction hyps as [|h r IH]; intros i Hi; simpl; [constructor|].
  constructor.
  - rewrite !map_map. simpl. intros Hin.
    apply in_map_iff in Hin as ([m x] & Heq & Hin). simpl in Heq.
    apply numbered_numbers in Hin.
    apply make_sim_id_injective in Heq; lia.
  - apply IH. lia.
Qed.

(** X5.  Within a category the identifiers are pairwise distinct: the
    results that [run_category] returns carry the identifiers built from
    the sequence numbers 1, 2, ... in order, and the sequence number
    reads back from the zero-padded number at the end of an identifier,
    which is never cut, whatever its size. *)
Theorem category_identifiers_distinct E cfg eng client cat hyps w rs w' :
  run_category E cfg eng client cat hyps w = (Returns rs, w') ->
  NoDup (map simulation_id rs)
  /\ map simulation_id rs
     = map (fun nh => make_sim_id (self_domain eng) cat (fst nh))
           (numbered 0 hyps)
  /\ (forall n, 0 <= n -> digits_value (format_04d n) = n).
Proof.
  intros Hrun.
  destruct (run_category_spec E cfg eng client cat hyps w)
    as (c & w1 & Hrun' & _ & Hc & _).
  rewrite Hrun in Hrun'. inversion Hrun'; subst c w1. clear Hrun'.
  destruct Hc as [_ Hkeys].
  assert (Hids : map simulation_id rs
                 = map (fun k => snd k)
                       (category_keys (self_domain eng) cat 0 hyps)).
  { rewrite <- Hkeys, map_map. reflexivity. }
  split; [|split].
  - rewrite Hids. apply category_ids_distinct. lia.
  - rewrite Hids. unfold category_keys. now rewrite map_map.
  - exact digits_value_format_04d.
Qed.

Lemma category_identifiers_distinct_witness :
  exists rs w',
    run_category (answering (VStr (pyq "{'outcome': 'positive'}")))
      default_settings business_engine open_client (py "viability")
      [py "Subscription pricing model"; py "Freemium with ads"] ready_world
    = (Returns rs, w')
    /\ NoDup (map simulation_id rs)
    /\ map simulation_id rs = [py "ORC-BUS-VIA-0001"; py "ORC-BUS-VIA-0002"].
Proof.
  eexists. eexists. split; [vm_compute; reflexivity|].
  match goal with
  | |- NoDup (map simulation_id ?rs) /\ _ =>
      destruct (category_identifiers_distinct
                  (answering (VStr (pyq "{'outcome': 'positive'}")))
                  default_settings business_engine open_client
                  (py "viability")
                  [py "Subscription pricing model"; py "Freemium with ads"]
                  ready_world rs
                  (snd (run_category
                          (answering (VStr (pyq "{'outcome': 'positive'}")))
                          default_settings business_engine open_client
                          (py "viability")
                          [py "Subscription pricing model";
                           py "Freemium with ads"] ready_world)))
        as (Hnd & Hids & _); [vm_compute; reflexivity|]
  end.
  split; [exact Hnd|]. rewrite Hids. vm_compute. reflexivity.
Defined.

(** Two categories that begin with the same three letters share their
    identifiers. *)
Example identifiers_collide_across_categories :
  make_sim_id (py "business") (py "pricing") 1
  = make_sim_id (py "business") (py "privacy") 1.
Proof. vm_compute. reflexivity. Qed.

(** ** More on the retry loop *)

Lemma new_events_app w w' evs :
  events w' = events w ++ evs -> new_events w w' = evs.
Proof.
  intros H. unfold new_events. rewrite H. apply skipn_length_app.
Qed.

(** X6.  A client whose session was never opened sends nothing: each of
    the three attempts fails inside the [try] before any request, is
    reported and followed by a sleep of 2 seconds, and the call returns
    the failure sentinel with the token total untouched. *)
Theorem generate_without_session E c prompt temp w :
  session c = false ->
  exists w',
    generate E c prompt temp w = (Returns (VStr FAILED_AFTER_RETRIES), w')
    /\ posts w' = posts w
    /\ total_tokens w' = total_tokens w
    /\ new_events w w'
       = [EvPrintRequestError AttributeError; EvSleep (VInt 2);
          EvPrintRequestError AttributeError; EvSleep (VInt 2);
          EvPrintRequestError AttributeError; EvSleep (VInt 2)].
Proof.
  intros Hs. unfold generate.
  change (range RETRY_ATTEMPTS) with [0; 1; 2].
  unfold attempts_loop, attempt_body, try_except, mbind, raise, emit, sleep,
    ret.
  rewrite Hs. simpl.
  eexists. split; [reflexivity|]. simpl.
  repeat split. apply new_events_app. simpl.
  now repeat rewrite <- app_assoc.
Qed.

Lemma generate_without_session_witness :
  exists w',
    generate (answering (VStr (py "never asked")))
      (GeminiClient_init default_settings (py "key") None) (py "prompt")
      default_temperature initial_world
    = (Returns (VStr FAILED_AFTER_RETRIES), w')
    /\ posts w' = posts initial_world
    /\ total_tokens w' = total_tokens initial_world
    /\ new_events initial_world w'
       = [EvPrintRequestError AttributeError; EvSleep (VInt 2);
          EvPrintRequestError AttributeError; EvSleep (VInt 2);
          EvPrintRequestError AttributeError; EvSleep (VInt 2)].
Proof.
  exact (generate_without_session (answering (VStr (py "never asked")))
           (GeminiClient_init default_settings (py "key") None) (py "prompt")
           default_temperature initial_world eq_refl).
Defined.

Lemma on_200_tokens data tokens text tokens' :
  on_200 data tokens = Ok (text, tokens') ->
  track_usage data tokens = Ok tokens'.
Proof.
  unfold on_200.
  destruct (get_parts data) as [items|]; [|discriminate]. simpl.
  destruct (text_of_parts items (VStr [])) as [t|]; [|discriminate]. simpl.
  destruct (track_usage data tokens) as [k|]; [|discriminate]. simpl.
  intros H. inversion H. reflexivity.
Qed.


(** The seconds slept add up over events put end to end. *)
Lemma slept_app a b : slept (a ++ b) = slept a + slept b.
Proof.
  induction a as [|e r IH]; simpl; [reflexivity|].
  destruct e; try assumption. destruct seconds; try assumption. lia.
Qed.

Lemma attempt_body_sleep E c url body a w :
  0 <= a ->
  exists evs,
    events (snd (attempt_body E c url body a w)) = events w ++ evs
    /\ 0 <= slept evs <= (a + 1) * 5.
Proof.
  intros Ha.
  unfold attempt_body, try_except, mbind, post, lift, get_world,
    set_total_tokens, emit, sleep, ret, raise.
  destruct (session c); simpl.
  2: { eexists. split; [rewrite <- app_assoc; reflexivity|]. simpl. lia. }
  destruct (endpoint E (posts w) url body) as [e|r]; simpl.
  { eexists. split; [rewrite <- !app_assoc; reflexivity|]. simpl. lia. }
  destruct (status r =? 200); simpl.
  - destruct (json_body r) as [data|e]; simpl.
    + destruct (on_200 data (total_tokens w)) as [[text tokens']|e]; simpl.
      * eexists. split; [reflexivity|]. simpl. lia.
      * eexists. split; [rewrite <- !app_assoc; reflexivity|]. simpl. lia.
    + eexists. split; [rewrite <- !app_assoc; reflexivity|]. simpl. lia.
  - destruct (status r =? 429); simpl.
    + eexists. split; [rewrite <- !app_assoc; reflexivity|]. simpl. lia.
    + destruct (text_body r) as [text|e]; simpl.
      * eexists. split; [rewrite <- !app_assoc; reflexivity|]. simpl. lia.
      * eexists. split; [rewrite <- !app_assoc; reflexivity|]. simpl. lia.
Qed.

Lemma backoff_budget_nonneg attempts :
  Forall (fun a => 0 <= a) attempts -> 0 <= backoff_budget attempts.
Proof.
  induction 1 as [|a r Ha _ IH]; simpl; lia.
Qed.

Lemma attempts_loop_sleep E c url body attempts : forall w,
  Forall (fun a => 0 <= a) attempts ->
  exists evs,
    events (snd (attempts_loop E c url body attempts w)) = events w ++ evs
    /\ 0 <= slept evs <= backoff_budget attempts.
Proof.
  induction attempts as [|a rest IH]; intros w Hall.
  - exists []. simpl. rewrite app_nil_r. split; [reflexivity|lia].
  - inversion Hall as [|? ? Ha Hrest]; subst.
    pose proof (backoff_budget_nonneg rest Hrest) as Hbudget.
    destruct (attempt_body_sleep E c url body a w Ha) as (evs & Hev & Hs).
    simpl. unfold mbind.
    destruct (attempt_body E c url body a w) as [[[text|]|e|] w1];
      simpl in Hev.
    + exists evs. simpl. split; [assumption|lia].
    + destruct (IH w1 Hrest) as (evs2 & Hev2 & Hs2).
      exists (evs ++ evs2). rewrite Hev2, Hev, app_assoc, slept_app.
      split; [reflexivity|lia].
    + exists evs. simpl. split; [assumption|lia].
    + exists evs. simpl. split; [assumption|lia].
Qed.


(** The bound is reached: three answers 429 cost the full 30 seconds. *)
Example generate_sleeps_30_seconds :
  slept (events (snd (generate (always (PostResponse (status_response 429)))
                        open_client (py "prompt") default_temperature
                        initial_world)))
  = 30.
Proof. vm_compute. reflexivity. Qed.

(** ** The hypotheses that [--count] keeps *)

Lemma slice_kept (n : Z) (hyps : list str) :
  n <> 0 -> slice hyps None (Some n) = kept n hyps.
Proof.
  intros Hn. rewrite slice_stop. unfold kept.
  destruct (Z.eqb_spec n 0) as [|_]; [contradiction|].
  destruct (Z.ltb_spec n 0), (Z.ltb_spec 0 n); try lia.
  - f_equal. unfold len. lia.
  - reflexivity.
Qed.

Lemma kept_length n hyps : (List.length (kept n hyps) <= List.length hyps)%nat.
Proof.
  unfold kept. destruct (n =? 0); [lia|].
  destruct (0 <? n); rewrite length_firstn; lia.
Qed.

(** X9.  [--count n] cuts every selected category to its first [n]
    hypotheses when [n] is positive; [--count 0] is no limit at all, and
    a negative [n] drops the last [-n] hypotheses of every category.  The
    categories and their order stay as they were selected. *)
Theorem select_hypotheses_count config args n base :
  arg_count args = Some n ->
  select_hypotheses config (without_count args) = RunAll base ->
  select_hypotheses config args
  = RunAll (map (fun ch => (fst ch, kept n (snd ch))) base)
  /\ (n = 0 -> select_hypotheses config args = RunAll base)
  /\ (0 < n ->
      forall c hyps, In (c, hyps) base ->
        In (c, firstn (Z.to_nat n) hyps)
           (map (fun ch => (fst ch, kept n (snd ch))) base))
  /\ (hypothesis_count (map (fun ch => (fst ch, kept n (snd ch))) base)
      <= hypothesis_count base)%nat.
Proof.
  intros Hcount Hbase.
  assert (Hsel : select_hypotheses config args
                 = RunAll (map (fun ch => (fst ch, kept n (snd ch))) base)).
  { unfold select_hypotheses, without_count in *. simpl in Hbase.
    rewrite Hcount.
    destruct (hypotheses config) as [|kv rest]; [discriminate|].
    injection Hbase as Hb. rewrite <- Hb. f_equal.
    destruct (Z.eqb_spec n 0) as [Hz|Hnz].
    - subst n. unfold kept. simpl.
      match goal with
      | |- ?X = _ =>
          transitivity (map (fun ch : str * list str => ch) X);
          [symmetry; apply map_id | apply map_ext; now intros [c l]]
      end.
    - apply map_ext. intros [c l]. simpl. now rewrite slice_kept. }
  split; [assumption|]. split; [|split].
  - intros Hz. rewrite Hsel. f_equal. subst n. unfold kept. simpl.
    transitivity (map (fun ch : str * list str => ch) base);
      [apply map_ext; now intros [c l] | apply map_id].
  - intros Hpos c hyps Hin. apply in_map_iff. exists (c, hyps).
    split; [|assumption]. simpl. unfold kept.
    destruct (Z.eqb_spec n 0); [lia|].
    destruct (Z.ltb_spec 0 n); [reflexivity|lia].
  - unfold hypothesis_count. clear.
    induction base as [|[c l] rest IH]; simpl; [lia|].
    pose proof (kept_length n l). lia.
Qed.

Lemma select_hypotheses_count_witness :
  select_hypotheses business_config
    {| arg_domain := py "business"; arg_category := None;
       arg_count := Some (-1) |}
  = RunAll (map (fun ch => (fst ch, kept (-1) (snd ch)))
              (hypotheses business_config)).
Proof.
  refine (proj1 (select_hypotheses_count business_config
                   {| arg_domain := py "business"; arg_category := None;
                      arg_count := Some (-1) |}
                   (-1) (hypotheses business_config) eq_refl _)).
  vm_compute. reflexivity.
Defined.

(** ** The figures of the summary *)

Lemma group_add_keys g r c :
  In c (map fst (group_add g r)) <-> c = category r \/ In c (map fst g).
Proof.
  induction g as [|[k sims] rest IH]; simpl.
  - intuition.
  - destruct (str_eqb k (category r)) eqn:Hk; simpl.
    + apply str_eqb_eq in Hk. subst k. intuition.
    + rewrite IH. intuition.
Qed.

Lemma group_add_nodup g r :
  NoDup (map fst g) -> NoDup (map fst (group_add g r)).
Proof.
  induction g as [|[k sims] rest IH]; simpl; intros Hnd.
  - constructor; [intros []|constructor].
  - inversion Hnd as [|? ? Hnotin Hrest]; subst.
    destruct (str_eqb k (category r)) eqn:Hk; simpl.
    + now constructor.
    + constructor; [|now apply IH].
      rewrite group_add_keys. intros [->|Hin]; [|contradiction].
      assert (Heq : str_eqb (category r) (category r) = true)
        by now apply str_eqb_eq.
      congruence.
Qed.

Lemma group_add_in g r c sims :
  NoDup (map fst g) ->
  In (c, sims) (group_add g r) ->
  (c <> category r /\ In (c, sims) g)
  \/ (c = category r
      /\ ((exists old, In (c, old) g /\ sims = old ++ [r])
          \/ (~ In c (map fst g) /\ sims = [r]))).
Proof.
  induction g as [|[k old] rest IH]; simpl; intros Hnd Hin.
  - destruct Hin as [Heq|[]]. inversion Heq; subst.
    right. split; [reflexivity|]. right. split; [intros []|reflexivity].
  - inversion Hnd as [|? ? Hnotin Hrest]; subst.
    destruct (str_eqb k (category r)) eqn:Hk.
    + apply str_eqb_eq in Hk. subst k.
      destruct Hin as [Heq|Hin].
      * inversion Heq; subst. right. split; [reflexivity|]. left.
        exists old. split; [now left|reflexivity].
      * left. split; [|now right].
        intros ->. apply Hnotin.
        change (category r) with (fst (category r, sims)).
        now apply in_map.
    + assert (Hne : k <> category r).
      { intros ->.
        assert (str_eqb (category r) (category r) = true)
          by now apply str_eqb_eq.
        congruence. }
      destruct Hin as [Heq|Hin].
      * inversion Heq; subst. left. split; [assumption|now left].
      * destruct (IH Hrest Hin) as [(Hc & Hg)|(Hc & [(o & Ho & Hs)|(Hn & Hs)])].
        -- left. split; [assumption|now right].
        -- right. split; [assumption|]. left. exists o.
           split; [now right|assumption].
        -- right. split; [assumption|]. right. split; [|assumption].
           intros [Hk'|Hk']; [congruence|contradiction].
Qed.

Lemma filter_none {A} (p : A -> bool) l :
  (forall x, In x l -> p x = false) -> filter p l = [].
Proof.
  induction l as [|a r IH]; simpl; intros H; [reflexivity|].
  rewrite (H a (or_introl eq_refl)). apply IH. intros x Hx. apply H. now right.
Qed.

Lemma category_eqb_true c r : category_eqb c r = true <-> category r = c.
Proof. unfold category_eqb. apply str_eqb_eq. Qed.

Lemma category_eqb_false c r : category r <> c -> category_eqb c r = false.
Proof.
  intros Hne. destruct (category_eqb c r) eqn:H; [|reflexivity].
  apply category_eqb_true in H. contradiction.
Qed.

Lemma group_fold rs : forall pre g,
  NoDup (map fst g) ->
  (forall r, In r pre -> In (category r) (map fst g)) ->
  (forall c sims, In (c, sims) g ->
     sims = filter (category_eqb c) pre /\ sims <> []) ->
  NoDup (map fst (fold_left group_add rs g))
  /\ (forall r, In r (pre ++ rs) ->
        In (category r) (map fst (fold_left group_add rs g)))
  /\ (forall c sims, In (c, sims) (fold_left group_add rs g) ->
        sims = filter (category_eqb c) (pre ++ rs) /\ sims <> []).
Proof.
  induction rs as [|r rest IH]; intros pre g Hnd Hcov Hgroups.
  - simpl. rewrite app_nil_r. auto.
  - simpl.
    replace (pre ++ r :: rest) with ((pre ++ [r]) ++ rest)
      by now rewrite <- app_assoc.
    apply IH.
    + now apply group_add_nodup.
    + intros x Hx. rewrite group_add_keys.
      apply in_app_or in Hx as [Hx|[<-|[]]]; auto.
    + intros c sims Hin.
      rewrite filter_app. simpl.
      destruct (group_add_in g r c sims Hnd Hin)
        as [(Hc & Hg)|(Hc & [(o & Ho & Hs)|(Hn & Hs)])].
      * destruct (Hgroups c sims Hg) as [Hs Hne].
        rewrite category_eqb_false by congruence.
        rewrite app_nil_r. auto.
      * destruct (Hgroups c o Ho) as [Hold _].
        rewrite (proj2 (category_eqb_true c r)) by congruence.
        subst sims. split; [now rewrite <- Hold|].
        now destruct o.
      * rewrite (proj2 (category_eqb_true c r)) by congruence.
        rewrite filter_none.
        -- subst sims. split; [reflexivity|discriminate].
        -- intros x Hx. apply category_eqb_false. intros Hcat.
           apply Hn. rewrite <- Hcat. now apply Hcov.
Qed.

(** X10.  The summary puts every result into the group of its category
    and into no other: the groups have distinct names, the group of a
    category holds the results of that category in their order, and no
    group is empty, so the percentages of the report never divide by
    zero. *)
Theorem summary_groups rs :
  NoDup (map fst (group_by_category rs))
  /\ (forall r, In r rs ->
        exists sims, In (category r, sims) (group_by_category rs)
                     /\ In r sims)
  /\ (forall c sims, In (c, sims) (group_by_category rs) ->
        sims = filter (category_eqb c) rs
        /\ sims <> []
        /\ exists q, true_div (positive sims) (len sims) = Ok q).
Proof.
  destruct (group_fold rs [] [])
    as (Hnd & Hcov & Hgroups); simpl.
  - constructor.
  - intros r [].
  - intros c sims [].
  - simpl in Hcov, Hgroups. fold (group_by_category rs) in *.
    split; [assumption|]. split.
    + intros r Hr. specialize (Hcov r Hr).
      apply in_map_iff in Hcov as ([c sims] & Hc & Hin). simpl in Hc.
      subst c. exists sims. split; [assumption|].
      destruct (Hgroups _ _ Hin) as [-> _].
      apply filter_In. split; [assumption|].
      now apply category_eqb_true.
    + intros c sims Hin. destruct (Hgroups c sims Hin) as [Hs Hne].
      split; [assumption|]. split; [assumption|].
      unfold true_div.
      destruct (Z.eqb_spec (len sims) 0) as [Hz|_]; [|eexists; reflexivity].
      destruct sims; [contradiction|]. rewrite len_cons in Hz.
      pose proof (len_nonneg sims). lia.
Qed.

Lemma positive_not_negative o :
  value_is_str o (py "positive") = true ->
  value_is_str o (py "negative") = false.
Proof.
  destruct o; simpl; try discriminate. intros H.
  apply str_eqb_eq in H. subst s. vm_compute. reflexivity.
Qed.

(** X11.  In a group of the summary the three counts are those of a
    partition: a result counts as positive or as negative, never as
    both, and as neutral when it is neither, whatever its outcome is
    (the outcome is not validated).  So no count is negative and none
    exceeds the size of the group. *)
Theorem summary_counts sims :
  neutral sims
  = len (filter (fun s => negb (value_is_str (outcome s) (py "positive"))
                          && negb (value_is_str (outcome s) (py "negative")))
                sims)
  /\ 0 <= positive sims <= len sims
  /\ 0 <= negative sims <= len sims
  /\ 0 <= neutral sims <= len sims.
Proof.
  assert (Hn : neutral sims
    = len (filter (fun s => negb (value_is_str (outcome s) (py "positive"))
                          && negb (value_is_str (outcome s) (py "negative")))
                  sims)).
  { unfold neutral, positive, negative.
    induction sims as [|s r IH]; [reflexivity|].
    cbn [filter].
    destruct (value_is_str (outcome s) (py "positive")) eqn:Hp.
    - rewrite (positive_not_negative _ Hp). cbn [negb andb].
      rewrite !len_cons. lia.
    - destruct (value_is_str (outcome s) (py "negative"));
        cbn [negb andb]; rewrite !len_cons; lia. }
  split; [assumption|].
  assert (Hle : forall p : SimulationResult -> bool,
             0 <= len (filter p sims) <= len sims).
  { intros p. pose proof (filter_length_le p sims). unfold len. lia. }
  split; [apply Hle|]. split; [apply Hle|].
  rewrite Hn. apply Hle.
Qed.

Lemma insert_by_priority_perm x l :
  Permutation (insert_by_priority x l) (x :: l).
Proof.
  induction l as [|y r IH]; simpl; [reflexivity|].
  destruct (priority_score y <? priority_score x); [reflexivity|].
  rewrite IH. apply perm_swap.
Qed.

Lemma insert_by_priority_sorted x l :
  StronglySorted (fun a b => priority_score b <= priority_score a) l ->
  StronglySorted (fun a b => priority_score b <= priority_score a)
    (insert_by_priority x l).
Proof.
  induction l as [|y r IH]; simpl; intros Hs.
  - repeat constructor.
  - inversion Hs as [|? ? Hr Hall]; subst.
    destruct (Z.ltb_spec (priority_score y) (priority_score x)) as [Hlt|Hge].
    + constructor; [assumption|]. constructor; [lia|].
      eapply Forall_impl; [|exact Hall]. simpl. intros; lia.
    + constructor; [now apply IH|].
      eapply Permutation_Forall.
      * symmetry. apply insert_by_priority_perm.
      * now constructor.
Qed.

Lemma insert_by_priority_filter p x l :
  StronglySorted (fun a b => priority_score b <= priority_score a) l ->
  filter (fun s => priority_score s =? p) (insert_by_priority x l)
  = filter (fun s => priority_score s =? p) l
    ++ (if priority_score x =? p then [x] else []).
Proof.
  induction l as [|y r IH]; intros Hs.
  - simpl. now destruct (priority_score x =? p).
  - inversion Hs as [|? ? Hr Hall]; subst. simpl.
    destruct (Z.ltb_spec (priority_score y) (priority_score x)) as [Hlt|Hge].
    + cbn [filter].
      destruct (Z.eqb_spec (priority_score x) p) as [Hx|Hx].
      * rewrite (filter_none _ r).
        -- destruct (Z.eqb_spec (priority_score y) p); [lia|reflexivity].
        -- intros z Hz. rewrite Forall_forall in Hall.
           specialize (Hall z Hz). simpl in Hall. apply Z.eqb_neq. lia.
      * now rewrite app_nil_r.
    + cbn [filter]. rewrite (IH Hr).
      now destruct (priority_score y =? p).
Qed.

Lemma sorted_by_priority_fold sims : forall acc,
  StronglySorted (fun a b => priority_score b <= priority_score a) acc ->
  let out := fold_left (fun acc x => insert_by_priority x acc) sims acc in
  Permutation out (acc ++ sims)
  /\ StronglySorted (fun a b => priority_score b <= priority_score a) out
  /\ forall p, filter (fun s => priority_score s =? p) out
               = filter (fun s => priority_score s =? p) (acc ++ sims).
Proof.
  induction sims as [|x rest IH]; intros acc Hs; simpl.
  - rewrite app_nil_r. auto.
  - destruct (IH (insert_by_priority x acc)
                (insert_by_priority_sorted x acc Hs)) as (Hp & Hsorted & Hf).
    split; [|split].
    + eapply Permutation_trans; [exact Hp|].
      eapply Permutation_trans;
        [apply Permutation_app_tail, insert_by_priority_perm|].
      simpl. apply Permutation_middle.
    + assumption.
    + intros p. rewrite Hf, !filter_app, insert_by_priority_filter by assumption.
      rewrite <- app_assoc. f_equal. simpl.
      now destruct (priority_score x =? p).
Qed.

Lemma strongly_sorted_app {A} (R : A -> A -> Prop) a b :
  StronglySorted R (a ++ b) ->
  forall x y, In x a -> In y b -> R x y.
Proof.
  induction a as [|h t IH]; simpl; intros Hs x y Hx Hy; [contradiction|].
  inversion Hs as [|? ? Ht Hall]; subst.
  destruct Hx as [<-|Hx].
  - rewrite Forall_forall in Hall. apply Hall. apply in_or_app. now right.
  - now apply IH.
Qed.

(** X12.  The ranking of a group is its results in descending order of
    priority score, results of equal score in the order in which they were
    produced; the top five are the first five of it, all of them when the
    group has fewer, and no result left out has a higher score than one
    that is listed. *)
Theorem top_5_ranking sims :
  Permutation (sorted_by_priority sims) sims
  /\ StronglySorted (fun a b => priority_score b <= priority_score a)
       (sorted_by_priority sims)
  /\ (forall p,
        filter (fun s => priority_score s =? p) (sorted_by_priority sims)
        = filter (fun s => priority_score s =? p) sims)
  /\ top_5 sims = firstn 5 (sorted_by_priority sims)
  /\ List.length (top_5 sims) = Nat.min 5 (List.length sims)
  /\ (forall x y,
        In x (top_5 sims) -> In y (skipn 5 (sorted_by_priority sims)) ->
        priority_score y <= priority_score x).
Proof.
  destruct (sorted_by_priority_fold sims [] (SSorted_nil _))
    as (Hp & Hs & Hf).
  simpl in Hp, Hf. fold (sorted_by_priority sims) in *.
  assert (Htop : top_5 sims = firstn 5 (sorted_by_priority sims)).
  { unfold top_5. now rewrite slice_stop. }
  repeat split; try assumption.
  - rewrite Htop, length_firstn. now rewrite (Permutation_length Hp).
  - intros x y Hx Hy. rewrite Htop in Hx.
    rewrite <- (firstn_skipn 5 (sorted_by_priority sims)) in Hs.
    exact (strongly_sorted_app _ _ _ Hs x y Hx Hy).
Qed.

(** ** A run, step by step *)

Lemma parse_raises_coercion raw e : parse raw = Raise e -> coercion_error e.
Proof.
  destruct (parse_raises_only_on_coercion raw) as (d & _ & ->).
  destruct (py_float _) as [conf|e1] eqn:Hf; simpl.
  - destruct (py_int _) as [prio|e2] eqn:Hi; simpl; [discriminate|].
    intros H. inversion H; subst. exact (py_int_raises _ _ Hi).
  - intros H. inversion H; subst. exact (py_float_raises _ _ Hf).
Qed.

Lemma run_simulation_with_failure E eng client cat hyp n w s w2 e :
  generate E client (make_prompt eng cat hyp) default_temperature
    (after_clock w) = (Returns (VStr s), w2) ->
  parse s = Raise e ->
  run_simulation E eng client cat hyp n w = (Raises e, after_clock w2).
Proof.
  intros Hgen Hparse. unfold parse in Hparse.
  destruct (parse_data_total s) as [d Hdata]. rewrite Hdata in Hparse.
  simpl in Hparse.
  unfold run_simulation, mbind, read_clock.
  change {| posts := posts w; clock_reads := S (clock_reads w);
            events := events w; total_tokens := total_tokens w;
            results := results w; permits := permits w |}
    with (after_clock w).
  rewrite Hgen. unfold ret, lift. rewrite Hdata. unfold ret.
  destruct (extract_fields (VDict d)) as [fields|e'] eqn:Hfields.
  - simpl in Hparse. discriminate.
  - simpl in Hparse. inversion Hparse; subst. reflexivity.
Qed.

Lemma run_simulation_non_string E eng client cat hyp n w v w2 :
  generate E client (make_prompt eng cat hyp) default_temperature
    (after_clock w) = (Returns v, w2) ->
  (forall s, v <> VStr s) ->
  run_simulation E eng client cat hyp n w
  = (Raises AttributeError, after_clock w2).
Proof.
  intros Hgen Hv.
  unfold run_simulation, mbind, read_clock.
  change {| posts := posts w; clock_reads := S (clock_reads w);
            events := events w; total_tokens := total_tokens w;
            results := results w; permits := permits w |}
    with (after_clock w).
  rewrite Hgen.
  destruct v; try reflexivity. now destruct (Hv s).
Qed.

(** What a call of [generate] costs. *)
Lemma generate_budget E c prompt temp w :
  exists v w' evs,
    generate E c prompt temp w = (Returns v, w')
    /\ events w' = events w ++ evs
    /\ forallb is_client_event evs = true
    /\ 0 <= slept evs <= 30
    /\ (posts w <= posts w' <= posts w + 3)%nat
    /\ (session c = true -> (posts w + 1 <= posts w')%nat)
    /\ results w' = results w
    /\ permits w' = permits w.
Proof.
  destruct (generate_spec E c prompt temp w)
    as (v & w' & Hrun & Hstep & Hcases).
  destruct Hstep as (Hres & Hper & _ & evs & Hev & Hcl).
  exists v, w', evs. split; [assumption|]. split; [assumption|].
  split; [assumption|]. split.
  { unfold generate in Hrun.
    destruct (attempts_loop_sleep E c (request_url c)
                (make_payload c prompt temp) (range RETRY_ATTEMPTS) w)
      as (evs' & Hev' & Hs).
    { change (range RETRY_ATTEMPTS) with [0; 1; 2].
      repeat constructor; lia. }
    rewrite Hrun in Hev'. simpl in Hev'. rewrite Hev in Hev'.
    apply app_inv_head in Hev'. subst evs'.
    change (backoff_budget (range RETRY_ATTEMPTS)) with 30 in Hs. exact Hs. }
  split; [|split; [|split; assumption]].
  - destruct Hcases as [(_ & _ & Hopen & Hclosed)|(_ & k & Hk & _ & Hp & _)].
    + destruct (session c).
      * destruct (Hopen eq_refl) as [Hp _]. lia.
      * rewrite (Hclosed eq_refl). lia.
    + lia.
  - intros Hs.
    destruct Hcases as [(_ & _ & Hopen & _)|(_ & k & Hk & _ & Hp & _)].
    + destruct (Hopen Hs) as [Hp _]. lia.
    + lia.
Qed.

(** What a simulation costs, and how it can end. *)
Lemma run_simulation_cases E eng client cat hyp n w :
  exists c w' evs,
    run_simulation E eng client cat hyp n w = (c, w')
    /\ events w' = events w ++ evs
    /\ forallb is_client_event evs = true
    /\ 0 <= slept evs <= 30
    /\ (posts w <= posts w' <= posts w + 3)%nat
    /\ (session client = true -> (posts w + 1 <= posts w')%nat)
    /\ results w' = results w
    /\ permits w' = permits w
    /\ match c with
       | Returns r =>
           category r = cat /\ hypothesis r = hyp
           /\ simulation_id r = make_sim_id (self_domain eng) cat n
       | Raises e => run_error e
       | Blocks => False
       end.
Proof.
  destruct (generate_budget E client (make_prompt eng cat hyp)
              default_temperature (after_clock w))
    as (v & w2 & evs & Hgen & Hev & Hcl & Hsl & Hpo & Hpo1 & Hres & Hper).
  simpl in Hev, Hpo, Hpo1, Hres, Hper.
  assert (Hv : (exists s, v = VStr s) \/ (forall s, v <> VStr s)).
  { destruct v; try (right; intros s' H; discriminate). left. eauto. }
  destruct Hv as [[s ->]|Hv].
  - destruct (parse s) as [[fields sm]|e] eqn:Hparse.
    + eexists. eexists. exists evs. split.
      * exact (run_simulation_with_reply E eng client cat hyp n w s w2 _ _
                 Hgen Hparse).
      * simpl. repeat split; auto; lia.
    + exists (Raises e), (after_clock w2), evs. split.
      * exact (run_simulation_with_failure E eng client cat hyp n w s w2 e
                 Hgen Hparse).
      * simpl. repeat split; auto; try lia.
        right. exact (parse_raises_coercion _ _ Hparse).
  - exists (Raises AttributeError), (after_clock w2), evs. split.
    + exact (run_simulation_non_string E eng client cat hyp n w v w2 Hgen Hv).
    + simpl. repeat split; auto; try lia. now left.
Qed.

Lemma holding_app a : forall b held,
  holding held (a ++ b)
  = match holding held a with
    | Some held' => holding held' b
    | None => None
    end.
Proof.
  induction a as [|e r IH]; intros b held; [reflexivity|].
  destruct e; simpl; try apply IH; destruct held; auto.
Qed.

Lemma holding_client evs : forall held,
  forallb is_client_event evs = true -> holding held evs = Some held.
Proof.
  induction evs as [|e r IH]; intros held H; [reflexivity|].
  simpl in H. apply andb_prop in H as [He Hr].
  destruct e; simpl in *; try discriminate; now apply IH.
Qed.

Lemma saved_slices_app a b :
  saved_slices (a ++ b) = saved_slices a ++ saved_slices b.
Proof. unfold saved_slices. apply flat_map_app. Qed.

Lemma saved_slices_client evs :
  forallb is_client_event evs = true -> saved_slices evs = [].
Proof.
  induction evs as [|e r IH]; intros H; [reflexivity|].
  simpl in H. apply andb_prop in H as [He Hr].
  destruct e; simpl in *; try discriminate; now apply IH.
Qed.

Lemma run_step_refl w : run_step 0 [] w w [].
Proof.
  unfold run_step. rewrite app_nil_r.
  split; [reflexivity|]. split; [reflexivity|]. split; [reflexivity|].
  split; [reflexivity|]. split; [reflexivity|]. split; [lia|].
  split; [simpl; lia|].
  exists []. rewrite app_nil_r. split; [reflexivity|simpl; lia].
Qed.

Lemma run_step_trans n m s t w w1 w2 e1 e2 :
  run_step n s w w1 e1 -> run_step m t w1 w2 e2 ->
  run_step (n + m) (s ++ t) w w2 (e1 ++ e2).
Proof.
  intros (Hev1 & Hp1 & Hh1 & Hr1 & Hs1 & Hpo1 & Hsl1 & new1 & Hres1 & Hl1)
         (Hev2 & Hp2 & Hh2 & Hr2 & Hs2 & Hpo2 & Hsl2 & new2 & Hres2 & Hl2).
  unfold run_step.
  split; [now rewrite Hev2, Hev1, app_assoc|].
  split; [congruence|].
  split; [now rewrite holding_app, Hh1|].
  split; [rewrite count_app; lia|].
  split; [now rewrite saved_slices_app, map_app, Hs1, Hs2|].
  split; [lia|].
  split; [rewrite slept_app; lia|].
  exists (new1 ++ new2). split.
  - now rewrite Hres2, Hres1, app_assoc.
  - rewrite length_app. lia.
Qed.

Lemma run_step_more n m s w w' evs :
  (n <= m)%nat -> run_step n s w w' evs -> run_step m s w w' evs.
Proof.
  intros Hle (Hev & Hp & Hh & Hr & Hs & Hpo & Hsl & new & Hres & Hl).
  unfold run_step.
  split; [assumption|]. split; [assumption|]. split; [assumption|].
  split; [assumption|]. split; [assumption|]. split; [lia|].
  split; [lia|].
  exists new. split; [assumption|lia].
Qed.

(** One pass through the loop of [run_category], however it ends. *)
Lemma run_item_step E cfg eng client cat total i hyp w :
  total <> 0 ->
  exists c w' evs,
    run_item E cfg eng client cat total i hyp w = (c, w')
    /\ run_step 1 [] w w' evs
    /\ match c with
       | Returns r =>
           0 < permits w
           /\ results w' = results w ++ [r]
           /\ (session client = true -> (posts w + 1 <= posts w')%nat)
           /\ category r = cat
           /\ hypothesis r = hyp
           /\ simulation_id r = make_sim_id (self_domain eng) cat (i + 1)
       | Raises e => 0 < permits w /\ run_error e
       | Blocks => permits w <= 0 /\ w' = w
       end.
Proof.
  intros Htotal.
  unfold run_item, async_with_semaphore, acquire, mbind.
  destruct (Z.ltb_spec 0 (permits w)) as [Hpos|Hnone].
  2: { exists Blocks, w, []. split; [reflexivity|].
       split; [|auto]. eapply run_step_more; [|apply run_step_refl]. lia. }
  unfold set_permits, emit. simpl.
  match goal with
  | |- context [run_simulation E eng client cat hyp (i + 1) ?w1] =>
      destruct (run_simulation_cases E eng client cat hyp (i + 1) w1)
        as (c & w2 & evs & Hrun & Hev & Hcl & Hsl & Hpo & Hpo1 & Hres & Hper
            & Hc);
      rewrite Hrun
  end.
  simpl in Hev, Hpo, Hpo1, Hres, Hper.
  destruct c as [r|e|]; [| |contradiction].
  - destruct Hc as (Hcat & Hhyp & Hid).
    unfold append_global, release, get_world, set_results, set_permits,
      emit, sleep, lift, true_div, ret, mbind. simpl.
    destruct (Z.eqb_spec total 0) as [|_]; [contradiction|]. simpl.
    exists (Returns r). eexists.
    exists ([EvAcquire] ++ evs
            ++ [EvAppendLocal (simulation_id r);
                EvAppendGlobal (simulation_id r);
                EvProgress cat (i + 1) total
                  (Qred (Qred (inject_Z (i + 1) / inject_Z total) * 100))
                  (outcome_icon (outcome r));
                EvSleep (VFloat (DELAY_BETWEEN_CALLS cfg));
                EvRelease]).
    split; [reflexivity|]. split.
    + unfold run_step.
      split; [simpl; rewrite Hev; repeat rewrite <- app_assoc; reflexivity|].
      split; [simpl; lia|].
      split; [simpl; rewrite holding_app, (holding_client evs true Hcl);
              reflexivity|].
      split.
      { rewrite !count_app, (count_client_events is_report evs);
          [reflexivity| |assumption].
        intros e He. destruct e; simpl in *; congruence. }
      split.
      { rewrite !saved_slices_app, (saved_slices_client evs Hcl).
        reflexivity. }
      split; [simpl; lia|].
      split; [rewrite !slept_app; simpl; lia|].
      exists [r]. simpl. split; [now rewrite Hres|lia].
    + simpl. repeat split; auto. now rewrite Hres.
  - unfold release, get_world, set_permits, emit, raise, mbind. simpl.
    exists (Raises e). eexists. exists ([EvAcquire] ++ evs ++ [EvRelease]).
    split; [reflexivity|]. split.
    + unfold run_step.
      split; [simpl; rewrite Hev; repeat rewrite <- app_assoc; reflexivity|].
      split; [simpl; lia|].
      split; [simpl; rewrite holding_app, (holding_client evs true Hcl);
              reflexivity|].
      split.
      { rewrite !count_app, (count_client_events is_report evs);
          [reflexivity| |assumption].
        intros e' He. destruct e'; simpl in *; congruence. }
      split.
      { rewrite !saved_slices_app, (saved_slices_client evs Hcl).
        reflexivity. }
      split; [simpl; lia|].
      split; [rewrite !slept_app; simpl; lia|].
      exists []. simpl. split; [now rewrite app_nil_r|lia].
    + auto.
Qed.

Lemma run_items_step E cfg eng client cat total hyps : forall i acc w,
  total <> 0 ->
  exists c w' evs,
    run_items E cfg eng client cat total i hyps acc w = (c, w')
    /\ run_step (List.length hyps) [] w w' evs
    /\ match c with
       | Returns rs =>
           (hyps <> [] -> 0 < permits w)
           /\ (session client = true ->
               (posts w + List.length hyps <= posts w')%nat)
           /\ exists new,
               rs = acc ++ new
               /\ results w' = results w ++ new
               /\ map key new = category_keys (self_domain eng) cat i hyps
       | Raises e => 0 < permits w /\ run_error e
       | Blocks => permits w <= 0 /\ hyps <> [] /\ w' = w
       end.
Proof.
  induction hyps as [|hyp rest IH]; intros i acc w Htotal.
  - exists (Returns acc), w, []. split; [reflexivity|].
    split; [apply run_step_refl|].
    split; [intros H; now destruct H|]. split; [simpl; lia|].
    exists []. now rewrite !app_nil_r.
  - cbn [run_items]. unfold mbind.
    destruct (run_item_step E cfg eng client cat total i hyp w Htotal)
      as (c & w1 & evs1 & Hrun & Hstep & Hc).
    rewrite Hrun. destruct c as [r|e|].
    + destruct Hc as (Hpos & Hres & Hpo & Hcat & Hhyp & Hid).
      destruct (IH (i + 1) (acc ++ [r]) w1 Htotal)
        as (c2 & w2 & evs2 & Hrun2 & Hstep2 & Hc2).
      assert (Hp1 : permits w1 = permits w) by apply Hstep.
      exists c2, w2, (evs1 ++ evs2). split; [assumption|].
      split; [exact (run_step_trans _ _ _ _ _ _ _ _ _ Hstep Hstep2)|].
      destruct c2 as [rs|e|].
      * destruct Hc2 as (_ & Hpo2 & new & Hrs & Hres2 & Hkeys).
        split; [intros _; assumption|]. split.
        { intros Hs. specialize (Hpo Hs). specialize (Hpo2 Hs).
          simpl. lia. }
        exists (r :: new). rewrite Hrs, Hres2, Hres, <- !app_assoc.
        repeat split. unfold category_keys. simpl.
        unfold category_keys in Hkeys. rewrite Hkeys.
        unfold key. now rewrite Hcat, Hhyp, Hid.
      * destruct Hc2 as [_ He]. auto.
      * destruct Hc2 as (Hnone & _). lia.
    + exists (Raises e), w1, evs1. split; [reflexivity|].
      split; [|assumption].
      eapply run_step_more; [|exact Hstep]. simpl. lia.
    + exists Blocks, w1, evs1. split; [reflexivity|].
      split; [eapply run_step_more; [|exact Hstep]; simpl; lia|].
      destruct Hc as [Hnone Hw]. repeat split; auto. discriminate.
Qed.

Lemma run_step_emit e w :
  holding false [e] = Some false ->
  is_report e = false ->
  slept [e] = 0 ->
  run_step 0 (map fst (saved_slices [e])) w (snd (emit e w)) [e].
Proof.
  intros Hh Hr Hs. unfold run_step. simpl.
  split; [reflexivity|]. split; [reflexivity|]. split; [assumption|].
  split; [unfold count; simpl; now rewrite Hr|].
  split; [reflexivity|]. split; [lia|]. split; [simpl in Hs; lia|].
  exists []. rewrite app_nil_r. split; [reflexivity|simpl; lia].
Qed.

Lemma run_category_step E cfg eng client cat hyps w :
  exists c w' evs,
    run_category E cfg eng client cat hyps w = (c, w')
    /\ run_step (List.length hyps) [] w w' evs
    /\ match c with
       | Returns rs =>
           (hyps <> [] -> 0 < permits w)
           /\ (session client = true ->
               (posts w + List.length hyps <= posts w')%nat)
           /\ results w' = results w ++ rs
           /\ map key rs = category_keys (self_domain eng) cat 0 hyps
       | Raises e => 0 < permits w /\ run_error e
       | Blocks => permits w <= 0 /\ hyps <> [] /\ w' = w
       end.
Proof.
  assert (Hnl : forall w0, run_step 0 [] w0 (snd (emit EvNewline w0))
                             [EvNewline]).
  { intros w0. now apply (run_step_emit EvNewline w0). }
  destruct hyps as [|hyp rest].
  - eexists. eexists. exists [EvNewline]. split; [reflexivity|].
    split; [apply Hnl|]. simpl.
    split; [intros H; now destruct H|]. split; [lia|].
    split; [now rewrite app_nil_r|reflexivity].
  - assert (Htotal : len (hyp :: rest) <> 0).
    { rewrite len_cons. pose proof (len_nonneg rest). lia. }
    unfold run_category, mbind.
    destruct (run_items_step E cfg eng client cat (len (hyp :: rest))
                (hyp :: rest) 0 [] w Htotal)
      as (c & w1 & evs & Hrun & Hstep & Hc).
    rewrite Hrun. destruct c as [rs|e|].
    + destruct Hc as (Hpos & Hpo & new & Hrs & Hres & Hkeys).
      simpl in Hrs. subst new.
      exists (Returns rs). eexists. exists (evs ++ [EvNewline]).
      split; [reflexivity|]. split.
      { pose proof (run_step_trans _ _ _ _ _ _ _ _ _ Hstep (Hnl w1)) as H.
        rewrite Nat.add_0_r in H. exact H. }
      simpl. auto.
    + exists (Raises e), w1, evs. auto.
    + exists Blocks, w1, evs. auto.
Qed.

Lemma hypothesis_count_cons cat hyps rest :
  hypothesis_count ((cat, hyps) :: rest)
  = (List.length hyps + hypothesis_count rest)%nat.
Proof. reflexivity. Qed.

(** The loop of [run_all] over the categories, however it ends. *)
Lemma run_categories_step E cfg eng client cats : forall w,
  exists c w' evs done,
    run_categories E cfg eng client cats w = (c, w')
    /\ run_step (hypothesis_count cats) done w w' evs
    /\ match c with
       | Returns _ =>
           done = map fst cats
           /\ (hypothesis_count cats <> 0%nat -> 0 < permits w)
           /\ (session client = true ->
               (posts w + hypothesis_count cats <= posts w')%nat)
           /\ exists new,
               results w' = results w ++ new
               /\ map key new = expected_keys (self_domain eng) cats
       | Raises e =>
           0 < permits w /\ run_error e
           /\ exists rest, map fst cats = done ++ rest /\ rest <> []
       | Blocks =>
           permits w <= 0 /\ hypothesis_count cats <> 0%nat
           /\ posts w' = posts w /\ results w' = results w
           /\ exists rest, map fst cats = done ++ rest /\ rest <> []
       end.
Proof.
  induction cats as [|[cat hyps] rest IH]; intros w.
  - exists (Returns tt), w, [], []. split; [reflexivity|].
    split; [apply run_step_refl|]. simpl.
    split; [reflexivity|]. split; [intros H; now destruct H|].
    split; [intros _; unfold hypothesis_count; simpl; lia|].
    exists []. now rewrite app_nil_r.
  - cbn [run_categories]. unfold mbind at 1.
    pose proof (run_step_emit (EvCategoryHeader (upper cat) (len hyps)) w
                  eq_refl eq_refl eq_refl) as Hhead.
    destruct (emit (EvCategoryHeader (upper cat) (len hyps)) w)
      as [c0 w0] eqn:Hemit.
    assert (Hc0 : c0 = Returns tt) by (unfold emit in Hemit; congruence).
    subst c0. simpl in Hhead.
    assert (Hw0 : permits w0 = permits w /\ posts w0 = posts w
                  /\ results w0 = results w).
    { unfold emit in Hemit. inversion Hemit. auto. }
    destruct Hw0 as (Hp0 & Hpo0 & Hr0).
    unfold mbind at 1.
    destruct (run_category_step E cfg eng client cat hyps w0)
      as (c & w1 & evs1 & Hrun & Hstep & Hc).
    rewrite Hrun. rewrite hypothesis_count_cons.
    destruct c as [rs|e|].
    + destruct Hc as (Hpos & Hpo & Hres & Hkeys).
      unfold mbind at 1.
      pose proof (run_step_emit
                    (EvSaveResults cat (filter (category_eqb cat) (results w1)))
                    w1 eq_refl eq_refl eq_refl) as Hsave.
      unfold _save_results, mbind, get_world.
      destruct (emit (EvSaveResults cat
                        (filter (category_eqb cat) (results w1))) w1)
        as [c2 w2] eqn:Hemit2.
      assert (Hc2 : c2 = Returns tt) by (unfold emit in Hemit2; congruence).
      subst c2. simpl in Hsave.
      assert (Hw2 : permits w2 = permits w1 /\ posts w2 = posts w1
                    /\ results w2 = results w1).
      { unfold emit in Hemit2. inversion Hemit2. auto. }
      destruct Hw2 as (Hp2 & Hpo2 & Hr2).
      destruct (IH w2) as (c3 & w3 & evs3 & done & Hrun3 & Hstep3 & Hc3).
      rewrite Hrun3.
      pose proof (run_step_trans _ _ _ _ _ _ _ _ _
                    (run_step_trans _ _ _ _ _ _ _ _ _
                       (run_step_trans _ _ _ _ _ _ _ _ _ Hhead Hstep) Hsave)
                    Hstep3) as Hall.
      simpl in Hall. rewrite Nat.add_0_r in Hall.
      assert (Hp1 : permits w1 = permits w0) by apply Hstep.
      exists c3, w3,
        ((([EvCategoryHeader (upper cat) (len hyps)] ++ evs1)
          ++ [EvSaveResults cat (filter (category_eqb cat) (results w1))])
         ++ evs3), (cat :: done).
      split; [reflexivity|]. split; [exact Hall|].
      destruct c3 as [u|e|].
      * destruct Hc3 as (Hdone & Hpos3 & Hpo3 & new & Hres3 & Hkeys3).
        split; [simpl; now rewrite Hdone|]. split.
        { intros Hne. destruct hyps as [|h t].
          - simpl in Hne. specialize (Hpos3 Hne). lia.
          - specialize (Hpos ltac:(discriminate)). lia. }
        split.
        { intros Hs. specialize (Hpo Hs). specialize (Hpo3 Hs). lia. }
        exists (rs ++ new). rewrite Hres3, Hr2, Hres, Hr0, <- app_assoc.
        split; [reflexivity|].
        unfold expected_keys. simpl. rewrite map_app, Hkeys.
        unfold expected_keys in Hkeys3. now rewrite Hkeys3.
      * destruct Hc3 as (Hpos3 & He & rest' & Hrest & Hne).
        split; [lia|]. split; [assumption|].
        exists rest'. simpl. now rewrite Hrest.
      * destruct Hc3 as (Hnone & Hcount & Hpo3 & Hres3 & rest' & Hrest & Hne).
        assert (Hempty : hyps = []).
        { destruct hyps as [|h t]; [reflexivity|].
          specialize (Hpos ltac:(discriminate)). lia. }
        subst hyps.
        destruct Hstep as (_ & _ & _ & _ & _ & Hpo1 & _ & new & Hnew & Hlen).
        simpl in Hpo1, Hlen.
        assert (new = []) by (destruct new; [reflexivity|simpl in Hlen; lia]).
        subst new. rewrite app_nil_r in Hnew.
        split; [lia|]. split; [simpl; lia|].
        split; [lia|]. split; [congruence|].
        exists rest'. simpl. now rewrite Hrest.
    + destruct Hc as [Hpos He].
      exists (Raises e), w1,
        ([EvCategoryHeader (upper cat) (len hyps)] ++ evs1), [].
      split; [reflexivity|]. split.
      { eapply run_step_more;
          [|exact (run_step_trans _ _ _ _ _ _ _ _ _ Hhead Hstep)]. lia. }
      split; [lia|]. split; [assumption|].
      exists (cat :: map fst rest). split; [reflexivity|discriminate].
    + destruct Hc as (Hnone & Hne & Hw).
      exists Blocks, w1,
        ([EvCategoryHeader (upper cat) (len hyps)] ++ evs1), [].
      split; [reflexivity|]. split.
      { eapply run_step_more;
          [|exact (run_step_trans _ _ _ _ _ _ _ _ _ Hhead Hstep)]. lia. }
      split; [lia|]. split.
      { destruct hyps; [now destruct Hne|simpl; lia]. }
      subst w1. split; [assumption|]. split; [assumption|].
      exists (cat :: map fst rest). split; [reflexivity|discriminate].
Qed.

(** [run_all] with a concurrency cap that the semaphore accepts, however
    it ends. *)
Lemma run_all_step E cfg eng cats w :
  0 <= MAX_CONCURRENT cfg ->
  exists c w' evs done,
    run_all E cfg eng cats w = (c, w')
    /\ events w' = events w ++ evs
    /\ permits w' = MAX_CONCURRENT cfg
    /\ holding false evs = Some false
    /\ map fst (saved_slices evs) = done
    /\ (posts w <= posts w' <= posts w + 3 * hypothesis_count cats)%nat
    /\ 0 <= slept evs <= 30 * Z.of_nat (hypothesis_count cats)
    /\ (exists new, results w' = results w ++ new
                    /\ (List.length new <= hypothesis_count cats)%nat)
    /\ match c with
       | Returns rs =>
           (hypothesis_count cats <> 0%nat -> 1 <= MAX_CONCURRENT cfg)
           /\ done = map fst cats
           /\ rs = results w'
           /\ (posts w + hypothesis_count cats <= posts w')%nat
           /\ exists body,
               evs = body ++ [EvPrintTokens (total_tokens w'); EvSummary rs]
               /\ count is_report body = 0%nat
       | Raises e =>
           1 <= MAX_CONCURRENT cfg /\ run_error e
           /\ count is_report evs = 0%nat
           /\ exists rest, map fst cats = done ++ rest /\ rest <> []
       | Blocks =>
           MAX_CONCURRENT cfg = 0 /\ hypothesis_count cats <> 0%nat
           /\ posts w' = posts w /\ results w' = results w
           /\ count is_report evs = 0%nat
       end.
Proof.
  intros Hcap. unfold run_all, Semaphore.
  destruct (Z.ltb_spec (MAX_CONCURRENT cfg) 0) as [Hneg|_]; [lia|].
  unfold mbind at 1. unfold set_permits at 1.
  unfold mbind at 1. unfold set_total_tokens at 1.
  unfold mbind at 1.
  match goal with
  | |- context [run_categories E cfg eng ?cl cats ?w0] =>
      destruct (run_categories_step E cfg eng cl cats w0)
        as (c & w1 & evs & done & Hrun & Hstep & Hc);
      rewrite Hrun
  end.
  destruct Hstep as (Hev & Hper & Hhold & Hrep & Hsaved & Hpo & Hsl
                     & new & Hres & Hlen).
  simpl in Hev, Hper, Hpo, Hres, Hc.
  destruct c as [u|e|].
  - destruct Hc as (Hdone & Hpos & Hpo1 & new' & Hres' & Hkeys).
    set (budget := 30 * Z.of_nat (hypothesis_count cats)) in *.
    unfold mbind, get_world, emit, _generate_summary, ret. simpl.
    eexists. eexists.
    exists (evs ++ [EvPrintTokens (total_tokens w1); EvSummary (results w1)]).
    exists done. split; [reflexivity|].
    cbn [events permits posts results total_tokens].
    split; [rewrite Hev; now rewrite <- !app_assoc|].
    split; [assumption|].
    split; [now rewrite holding_app, Hhold|].
    split; [now rewrite saved_slices_app, map_app, Hsaved, app_nil_r|].
    split; [assumption|].
    split; [rewrite slept_app; cbn [slept]; lia|].
    split; [eauto|].
    split; [intros Hne; specialize (Hpos Hne); lia|].
    split; [assumption|]. split; [reflexivity|].
    split; [apply Hpo1; reflexivity|].
    exists evs. split; [reflexivity|assumption].
  - destruct Hc as (Hpos & He & Hrest).
    exists (Raises e), w1, evs, done. split; [reflexivity|].
    do 6 (split; [assumption|]). split; [eauto|].
    split; [lia|]. split; [assumption|]. split; assumption.
  - destruct Hc as (Hnone & Hne & Hpo0 & Hres0 & _).
    exists Blocks, w1, evs, done. split; [reflexivity|].
    do 6 (split; [assumption|]). split; [eauto|].
    split; [lia|]. do 3 (split; [assumption|]). assumption.
Qed.

Lemma run_all_negative_cap E cfg eng cats w :
  MAX_CONCURRENT cfg < 0 ->
  run_all E cfg eng cats w = (Raises ValueError, w).
Proof.
  intros Hneg. unfold run_all, Semaphore.
  destruct (Z.ltb_spec (MAX_CONCURRENT cfg) 0) as [_|H]; [reflexivity|lia].
Qed.


(** X14.  A run over n hypotheses costs at most 3n requests and at most
    30n seconds of back-off, however the endpoint answers and however the
    run ends; a run that returns has sent at least one request for each
    hypothesis. *)
Theorem run_all_request_budget E cfg eng cats w :
  exists c w',
    run_all E cfg eng cats w = (c, w')
    /\ (posts w <= posts w' <= posts w + 3 * hypothesis_count cats)%nat
    /\ 0 <= slept (new_events w w')
         <= 30 * Z.of_nat (hypothesis_count cats)
    /\ (forall rs, c = Returns rs ->
          (posts w + hypothesis_count cats <= posts w')%nat).
Proof.
  destruct (Z.ltb_spec (MAX_CONCURRENT cfg) 0) as [Hneg|Hcap].
  - exists (Raises ValueError), w.
    split; [now apply run_all_negative_cap|].
    split; [lia|]. split; [|discriminate].
    unfold new_events. rewrite skipn_all. cbn [slept]. lia.
  - destruct (run_all_step E cfg eng cats w Hcap)
      as (c & w' & evs & done & Hrun & Hev & _ & _ & _ & Hpo & Hsl & _ & Hc).
    exists c, w'. split; [assumption|]. split; [assumption|].
    split; [now rewrite (new_events_app w w' evs Hev)|].
    intros rs ->. apply Hc.
Qed.



(** ** What is saved for a category *)

Lemma filter_all {A} (p : A -> bool) l :
  (forall x, In x l -> p x = true) -> filter p l = l.
Proof.
  induction l as [|a r IH]; simpl; intros H; [reflexivity|].
  rewrite (H a (or_introl eq_refl)). f_equal. apply IH.
  intros x Hx. apply H. now right.
Qed.

Lemma category_keys_category dom cat hyps : forall i rs,
  map key rs = category_keys dom cat i hyps ->
  forall r, In r rs -> category r = cat.
Proof.
  unfold category_keys.
  induction hyps as [|h t IH]; intros i rs Hkeys r Hin.
  - destruct rs; [contradiction|discriminate].
  - destruct rs as [|r0 rs']; [contradiction|].
    cbn [map numbered fst snd] in Hkeys. unfold key at 1 in Hkeys.
    injection Hkeys as Hc Hh Hid Hrest.
    destruct Hin as [<-|Hin]; [assumption|].
    exact (IH (i + 1) rs' Hrest r Hin).
Qed.

Lemma run_categories_saves E cfg eng client cats : forall w u w',
  NoDup (map fst cats) ->
  (forall r, In r (results w) -> ~ In (category r) (map fst cats)) ->
  run_categories E cfg eng client cats w = (Returns u, w') ->
  Forall2 (slice_of (self_domain eng)) cats
    (saved_slices (new_events w w'))
  /\ results w'
     = results w ++ List.concat (map snd (saved_slices (new_events w w'))).
Proof.
  induction cats as [|[cat hyps] rest IH]; intros w u w' Hnd Hfresh Hrun.
  - simpl in Hrun. inversion Hrun; subst.
    unfold new_events. rewrite skipn_all. simpl.
    split; [constructor|now rewrite app_nil_r].
  - inversion Hnd as [|? ? Hnotin Hnd']; subst.
    cbn [run_categories] in Hrun. unfold mbind at 1 in Hrun.
    unfold emit at 1 in Hrun.
    unfold mbind at 1 in Hrun.
    match type of Hrun with
    | context [run_category E cfg eng client cat hyps ?w0] =>
        destruct (run_category_step E cfg eng client cat hyps w0)
          as (c & w1 & evs1 & Hrun1 & Hstep1 & Hc1);
        rewrite Hrun1 in Hrun
    end.
    destruct c as [rs|e|]; [|discriminate|discriminate].
    destruct Hc1 as (_ & _ & Hres1 & Hkeys1).
    destruct Hstep1 as (Hev1 & _ & _ & _ & Hsaved1 & _).
    cbn [events results] in Hev1, Hres1.
    apply map_eq_nil in Hsaved1.
    unfold mbind at 1 in Hrun. unfold _save_results, mbind, get_world in Hrun.
    unfold emit at 1 in Hrun.
    match type of Hrun with
    | run_categories E cfg eng client rest ?w2 = _ =>
        remember w2 as w2' eqn:Hw2
    end.
    assert (Hev2 : events w2' = events w1
              ++ [EvSaveResults cat (filter (category_eqb cat) (results w1))])
      by (subst w2'; reflexivity).
    assert (Hres2 : results w2' = results w1) by (subst w2'; reflexivity).
    clear Hw2.
    assert (Hcat : forall r, In r rs -> category r = cat)
      by exact (category_keys_category _ _ _ _ _ Hkeys1).
    assert (Hfilter : filter (category_eqb cat) (results w1) = rs).
    { rewrite Hres1, filter_app, filter_none, filter_all; [reflexivity| |].
      - intros r Hr. apply category_eqb_true. now apply Hcat.
      - intros r Hr. apply category_eqb_false. intros Heq.
        apply (Hfresh r Hr). left. now rewrite Heq. }
    rewrite Hfilter in Hev2.
    destruct (run_categories_step E cfg eng client rest w2')
      as (c3 & w3 & evs3 & done & Hrun3 & Hstep3 & _).
    rewrite Hrun in Hrun3. inversion Hrun3; subst c3 w3.
    destruct Hstep3 as (Hev3 & _).
    destruct (IH w2' u w' Hnd') as [Hall Hres3]; [|assumption|].
    { intros r Hr. rewrite Hres2, Hres1 in Hr.
      apply in_app_or in Hr as [Hr|Hr].
      - intros Hin. apply (Hfresh r Hr). now right.
      - now rewrite (Hcat r Hr). }
    rewrite (new_events_app w2' w' evs3 Hev3) in Hall, Hres3.
    assert (Hnew : new_events w w'
                   = [EvCategoryHeader (upper cat) (len hyps)] ++ evs1
                     ++ [EvSaveResults cat rs] ++ evs3).
    { apply new_events_app. rewrite Hev3, Hev2, Hev1.
      now rewrite <- !app_assoc. }
    rewrite Hnew, !saved_slices_app, Hsaved1.
    change (saved_slices [EvCategoryHeader (upper cat) (len hyps)]) with
      (@nil (str * list SimulationResult)).
    change (saved_slices [EvSaveResults cat rs]) with [(cat, rs)].
    simpl. split.
    + constructor; [|assumption]. split; [reflexivity|exact Hkeys1].
    + rewrite Hres3, Hres2, Hres1. now rewrite <- app_assoc.
Qed.

(** X16.  On an engine without earlier results, a run that returns has
    saved the categories one after the other, in the order of the input:
    for each category exactly the results of its own hypotheses, one per
    hypothesis in order; the saved lists put end to end are the results
    returned, and the last thing written is the summary of these. *)
Theorem run_all_saves_each_category E cfg eng cats w rs w' :
  results w = [] ->
  NoDup (map fst cats) ->
  run_all E cfg eng cats w = (Returns rs, w') ->
  Forall2 (slice_of (self_domain eng)) cats
    (saved_slices (new_events w w'))
  /\ rs = List.concat (map snd (saved_slices (new_events w w')))
  /\ exists body,
       new_events w w'
       = body ++ [EvPrintTokens (total_tokens w'); EvSummary rs].
Proof.
  intros Hfresh Hnd Hrun.
  unfold run_all, Semaphore in Hrun.
  destruct (MAX_CONCURRENT cfg <? 0); [discriminate|].
  unfold mbind at 1 in Hrun. unfold set_permits at 1 in Hrun.
  unfold mbind at 1 in Hrun. unfold set_total_tokens at 1 in Hrun.
  unfold mbind at 1 in Hrun.
  match type of Hrun with
  | context [run_categories E cfg eng ?cl cats ?w0] =>
      remember w0 as w0' eqn:Hw0;
      destruct (run_categories_step E cfg eng cl cats w0')
        as (c & w1 & evs & done & Hrun1 & Hstep & _);
      rewrite Hrun1 in Hrun
  end.
  assert (Hev0 : events w0' = events w) by (subst w0'; reflexivity).
  assert (Hres0 : results w0' = []) by (subst w0'; exact Hfresh).
  clear Hw0.
  destruct c as [u|e|]; [|discriminate|discriminate].
  unfold mbind, get_world, emit, _generate_summary, ret in Hrun.
  cbn in Hrun. inversion Hrun; subst rs w'. clear Hrun.
  destruct Hstep as (Hev & _).
  assert (Hfr : forall r, In r (results w0') ->
                  ~ In (category r) (map fst cats))
    by (rewrite Hres0; intros r []).
  destruct (run_categories_saves _ _ _ _ _ _ _ _ Hnd Hfr Hrun1)
    as [Hall Hres].
  rewrite (new_events_app w0' w1 evs Hev) in Hall, Hres.
  rewrite Hres0 in Hres. simpl in Hres.
  assert (Hnew : new_events w
                   {| posts := posts w1; clock_reads := clock_reads w1;
                      events := (events w1 ++ [EvPrintTokens (total_tokens w1)])
                                ++ [EvSummary (results w1)];
                      total_tokens := total_tokens w1;
                      results := results w1; permits := permits w1 |}
                 = evs ++ [EvPrintTokens (total_tokens w1);
                           EvSummary (results w1)]).
  { apply new_events_app. cbn [events]. rewrite Hev, Hev0.
    now rewrite <- !app_assoc. }
  cbn [results total_tokens]. rewrite Hnew, saved_slices_app.
  change (saved_slices [EvPrintTokens (total_tokens w1);
                        EvSummary (results w1)])
    with (@nil (str * list SimulationResult)).
  rewrite app_nil_r.
  split; [assumption|]. split; [assumption|].
  exists evs. reflexivity.
Qed.

Lemma run_all_saves_each_category_witness :
  exists rs w',
    run_all (answering (VStr (pyq "{'outcome': 'positive'}")))
      default_settings business_engine (hypotheses business_config)
      initial_world = (Returns rs, w')
    /\ Forall2 (slice_of (py "business")) (hypotheses business_config)
         (saved_slices (new_events initial_world w')).
Proof.
  set (r := run_all (answering (VStr (pyq "{'outcome': 'positive'}")))
              default_settings business_engine (hypotheses business_config)
              initial_world).
  assert (Hrun : r = (Returns (results (snd r)), snd r))
    by (vm_compute; reflexivity).
  assert (Hnd : NoDup (map fst (hypotheses business_config))).
  { change (NoDup [py "viability"]). constructor; [intros []|constructor]. }
  exists (results (snd r)), (snd r). split; [exact Hrun|].
  exact (proj1 (run_all_saves_each_category
                  (answering (VStr (pyq "{'outcome': 'positive'}")))
                  default_settings business_engine
                  (hypotheses business_config) initial_world
                  (results (snd r)) (snd r) eq_refl Hnd Hrun)).
Defined.

(** ** [main], end to end *)


